(** * HannaIRC scrapers: anime lookup, web scraper and manual fact entry

    A shallow embedding of [docs/scrapers/anime_lookup.py],
    [docs/scrapers/scrape_to_n8n.py] and [docs/scrapers/manual_fact_to_n8n.py].

    Conventions of the embedding:
    - a Python [str] is a [string]; the text handled here is ASCII, and
      [str.lower], [str.strip], [in], [endswith] and [split] are written out
      on it;
    - a Python [int] is a [Z];
    - a Python [dict] is an association list in insertion order: assigning to
      a key that is present replaces the value in place, assigning to a new
      key appends the pair.  Iteration ([.items()]) follows the list;
    - a Python exception is a result [Raise e]; [try/except Exception] is
      a match on it;
    - a run that prints or talks to the network is a list of events, in
      order, with the value or the exception it ends in;
    - network calls, [uuid.uuid4], [datetime.utcnow], [int], [float] and
      [urlparse] are library or operating-system services: they are
      parameters of the definitions that use them, and the lines [input]
      reads are arguments. *)

From Stdlib Require Import String Ascii List ZArith Lia Bool DecimalString Floats.
Import ListNotations.
Open Scope Z_scope.
Open Scope string_scope.

(** ** Python values shared by the three scripts *)

Module Py.

Inductive exn : Type :=
| KeyError
| ValueError
| NameError (name : string)
| IndexError
| EOFError
| RequestException.

Inductive result (A : Type) : Type :=
| Ok (a : A)
| Raise (e : exn).

Arguments Ok {A} a.
Arguments Raise {A} e.

Definition bind {A B : Type} (m : result A) (k : A -> result B) : result B :=
  match m with
  | Ok a => k a
  | Raise e => Raise e
  end.

Notation "x <- m ;; k" := (bind m (fun x => k))
  (at level 61, m at next level, right associativity).

(** [for x in xs: acc = body(acc, x)], stopping at the first exception. *)
Fixpoint for_each {A S : Type} (body : S -> A -> result S) (xs : list A) (acc : S)
  : result S :=
  match xs with
  | [] => Ok acc
  | x :: rest => acc' <- body acc x ;; for_each body rest acc'
  end.

(** *** str

    A Python [str] is modelled as a string of ASCII characters, the text of
    the catalog keys, commands and domains the scripts compare.  On such text
    the functions below are those of [str]; characters outside ASCII, which
    [str.lower] and [str.strip] also treat, are outside the model. *)

Definition is_upper (c : ascii) : bool :=
  let n := nat_of_ascii c in (65 <=? n)%nat && (n <=? 90)%nat.

Definition lower_char (c : ascii) : ascii :=
  if is_upper c then ascii_of_nat (nat_of_ascii c + 32) else c.

(** [s.lower()], on ASCII text *)
Fixpoint lower (s : string) : string :=
  match s with
  | EmptyString => EmptyString
  | String c rest => String (lower_char c) (lower rest)
  end.

Definition is_lower (c : ascii) : bool :=
  let n := nat_of_ascii c in (97 <=? n)%nat && (n <=? 122)%nat.

(** [s.startswith(prefix)] *)
Fixpoint startswith (s prefix : string) : bool :=
  match prefix, s with
  | EmptyString, _ => true
  | String a prefix', String b s' => Ascii.eqb a b && startswith s' prefix'
  | String _ _, EmptyString => false
  end.

(** [sub in s] *)
Fixpoint contains (sub s : string) : bool :=
  startswith s sub ||
  match s with
  | EmptyString => false
  | String _ rest => contains sub rest
  end.

(** [s.endswith(suffix)] *)
Fixpoint endswith (s suffix : string) : bool :=
  (s =? suffix)%string ||
  match s with
  | EmptyString => false
  | String _ rest => endswith rest suffix
  end.

(** The characters [str.strip()] removes: tab, line feed, vertical tab, form
    feed, carriage return, the four separators 28 to 31, and space. *)
Definition is_space (c : ascii) : bool :=
  let n := nat_of_ascii c in
  ((9 <=? n)%nat && (n <=? 13)%nat) || ((28 <=? n)%nat && (n <=? 32)%nat).

Fixpoint lstrip (s : string) : string :=
  match s with
  | EmptyString => EmptyString
  | String c rest => if is_space c then lstrip rest else s
  end.

Fixpoint rstrip (s : string) : string :=
  match s with
  | EmptyString => EmptyString
  | String c rest =>
      match rstrip rest with
      | EmptyString => if is_space c then EmptyString else String c EmptyString
      | kept => String c kept
      end
  end.

(** [s.strip()] *)
Definition strip (s : string) : string := rstrip (lstrip s).

(** [s.split(sep)] for a one-character separator: always at least one piece. *)
Fixpoint split (sep : ascii) (s : string) : list string :=
  match s with
  | EmptyString => [EmptyString]
  | String c rest =>
      if Ascii.eqb c sep then EmptyString :: split sep rest
      else
        match split sep rest with
        | piece :: pieces => String c piece :: pieces
        | [] => [String c EmptyString]
        end
  end.

(** [str(n)] for an int, as an f-string renders it. *)
Definition str_of_int (n : Z) : string := NilZero.string_of_int (Z.to_int n).

(** [not s] for a str *)
Definition is_empty (s : string) : bool :=
  match s with
  | EmptyString => true
  | String _ _ => false
  end.

(** [x is None] *)
Definition is_none {A : Type} (x : option A) : bool :=
  match x with
  | None => true
  | Some _ => false
  end.

(** *** dict *)

Section Dict.

Context {K V : Type}.
Variable eqb : K -> K -> bool.

(** [d.get(k)]: also decides [k in d] *)
Fixpoint dict_get (d : list (K * V)) (k : K) : option V :=
  match d with
  | [] => None
  | (k', v) :: rest => if eqb k k' then Some v else dict_get rest k
  end.

(** [d[k]], raising KeyError on a missing key *)
Definition getitem (d : list (K * V)) (k : K) : result V :=
  match dict_get d k with
  | Some v => Ok v
  | None => Raise KeyError
  end.

(** [d[k] = v] *)
Fixpoint dict_set (d : list (K * V)) (k : K) (v : V) : list (K * V) :=
  match d with
  | [] => [(k, v)]
  | (k', v') :: rest =>
      if eqb k k' then (k', v) :: rest else (k', v') :: dict_set rest k v
  end.

End Dict.

End Py.

Import Py.

(** ** The payload posted to the webhook *)

Module Webhook.

(** The JSON body of a submission, field by field as the scripts build it. *)
Record payload : Type := {
  id : string;
  text : string;
  url : option string;
  title : option string;
  source_type : string;
  confidence : float;
  timestamp : string;
  sourceUser : option string;
  tags : list string;
  related_entities : list string
}.

(** The part of a [requests] response the scripts read. *)
Record response : Type := {
  status_code : Z;
  response_text : string
}.

(** The closed interval the schema documents for [confidence]. *)
Definition in_unit_interval (f : float) : bool :=
  PrimFloat.leb 0%float f && PrimFloat.leb f 1%float.

End Webhook.

(** ** Effects: prints, requests, exceptions *)

Module World.

Import Webhook.

(** Messages the scripts print, with the values they interpolate. *)
Inductive message : Type :=
| MsgInjecting
| MsgProgress (idx total success errors : Z)
| MsgHttpStatus (code : Z) (main_title : option string)
| MsgPostError (main_title : option string) (e : exn)
| MsgInjectionComplete (success errors : Z)
| MsgSkippingExcluded (domain : string)
| MsgScraping (url : string)
| MsgScrapedText (text : string)
| MsgErrorScraping (url : string) (e : exn)
| MsgNoFacts
| MsgSendingFact (i total : Z) (webhook_url : string)
| MsgSendingPayload (webhook_url : string)
| MsgStatus (code : Z)
| MsgResponse (body : string)
| MsgErrorSending (e : exn)
| MsgExiting.

(** What a run does to the outside world, in order.  Timeouts, headers and
    the TLS [verify] argument of a request are not recorded. *)
Inductive event : Type :=
| Printed (m : message)
| HttpGet (url : string)
| HttpPost (webhook_url : string) (body : payload).

(** The submissions of a run, in order. *)
Fixpoint posts (trace : list event) : list payload :=
  match trace with
  | [] => []
  | HttpPost _ body :: rest => body :: posts rest
  | _ :: rest => posts rest
  end.

(** A computation with effects: the events it caused, then its value or the
    exception that ended it. *)
Definition io (A : Type) : Type := (list event * result A)%type.

Definition io_ret {A : Type} (a : A) : io A := ([], Ok a).

Definition io_bind {A B : Type} (m : io A) (k : A -> io B) : io B :=
  match m with
  | (t1, Ok a) => let (t2, r) := k a in ((t1 ++ t2)%list, r)
  | (t1, Raise e) => (t1, Raise e)
  end.

Definition emit (e : event) : io unit := ([e], Ok tt).

Definition print (m : message) : io unit := emit (Printed m).

(** A pure computation that may raise. *)
Definition lift {A : Type} (r : result A) : io A := ([], r).

(** [try: m  except Exception as e: handler(e)] *)
Definition try_except {A : Type} (m : io A) (handler : exn -> io A) : io A :=
  match m with
  | (t1, Ok a) => (t1, Ok a)
  | (t1, Raise e) => let (t2, r) := handler e in ((t1 ++ t2)%list, r)
  end.

Notation "x <~ m ;; k" := (io_bind m (fun x => k))
  (at level 61, m at next level, right associativity).
Notation "m ;; k" := (io_bind m (fun _ => k))
  (at level 61, right associativity).
Notation "' pat <~ m ;; k" := (io_bind m (fun x => match x with pat => k end))
  (at level 61, pat pattern, m at next level, right associativity).

(** [for x in xs: acc = body(acc, x)] with effects. *)
Fixpoint io_for_each {A S : Type} (body : S -> A -> io S) (xs : list A) (acc : S) : io S :=
  match xs with
  | [] => io_ret acc
  | x :: rest => acc' <~ body acc x ;; io_for_each body rest acc'
  end.

(** [enumerate(xs, start)] *)
Fixpoint enumerate {A : Type} (start : Z) (xs : list A) : list (Z * A) :=
  match xs with
  | [] => []
  | x :: rest => (start, x) :: enumerate (start + 1) rest
  end.

(** [[t.strip() for t in s.split(",") if t.strip()] if s else []] *)
Definition comma_list (s : string) : list string :=
  if is_empty s then []
  else filter (fun t => negb (is_empty t)) (map strip (split "," s)).

(** [any(domain == ex or domain.endswith('.' + ex) for ex in excluded_domains)] *)
Definition domain_excluded (excluded_domains : list string) (domain : string) : bool :=
  existsb (fun ex => (domain =? ex) || endswith domain ("." ++ ex)) excluded_domains.

(** The exclusion file as [load_excluded_domains_json] finds it: absent,
    not loadable as a list of objects with string domains, or a list of
    objects each with or without a [domain] field. *)
Inductive exclusions_file : Type :=
| NoFile
| BadJson
| Json (entries : list (option string)).

(** [entry['domain'].strip().lower() for entry in data if 'domain' in entry] *)
Fixpoint domains_of (entries : list (option string)) : list string :=
  match entries with
  | [] => []
  | Some d :: rest => lower (strip d) :: domains_of rest
  | None :: rest => domains_of rest
  end.

End World.

Import World.

(** ** anime_lookup.py *)

Module AnimeLookup.

(** A [<title>] element: its text and its [type] and [xml:lang] attributes. *)
Record title_elem : Type := {
  elem_text : option string;
  attr_type : option string;
  attr_lang : option string
}.

(** An [<anime>] element: its [aid] attribute and its [<title>] children. *)
Record anime_elem : Type := {
  attr_aid : option string;
  title_elems : list title_elem
}.

(** An entry of [titles_list]. *)
Record title_info : Type := {
  text : string;
  type : string;
  lang : string
}.

(** A value of [lookup['anime_data']]. *)
Record anime : Type := {
  aid : Z;
  main_title : option string;
  title_list : list title_info;
  anidb_url : string
}.

(** The dictionary [parse_anime_titles] returns. *)
Record lookup : Type := {
  abbreviations : list (string * Z);
  titles : list (string * Z);
  anime_data : list (Z * anime)
}.

Definition empty_lookup : lookup :=
  {| abbreviations := []; titles := []; anime_data := [] |}.

(** [elem.get(name, default)] *)
Definition attr_default (a : option string) (default : string) : string :=
  match a with
  | Some v => v
  | None => default
  end.

(** The locals the title loop updates, with the two tables it writes. *)
Record title_state : Type := {
  titles_list : list title_info;
  cur_main_title : option string;
  cur_titles : list (string * Z);
  cur_abbreviations : list (string * Z)
}.

(** One iteration of [for title_elem in anime_elem.findall('title')]. *)
Definition title_step (aid : Z) (st : title_state) (t : title_elem) : title_state :=
  let title_type := attr_default (attr_type t) "unknown" in
  let lang := attr_default (attr_lang t) "unknown" in
  match elem_text t with
  | None => st
  | Some title_text =>
      if is_empty title_text then st
      else
        {| titles_list :=
             (titles_list st ++ [{| text := title_text; type := title_type; lang := lang |}])%list;
           cur_main_title :=
             if (title_type =? "main") || is_none (cur_main_title st)
             then Some title_text
             else cur_main_title st;
           cur_titles := dict_set String.eqb (cur_titles st) (lower title_text) aid;
           cur_abbreviations :=
             if title_type =? "short"
             then dict_set String.eqb (cur_abbreviations st) (lower title_text) aid
             else cur_abbreviations st |}
  end.

Definition title_loop (aid : Z) (st : title_state) (ts : list title_elem) : title_state :=
  fold_left (title_step aid) ts st.

Section Parse.

(** [int(s)]: the integer a string denotes, or [None] where [int] raises
    ValueError. *)
Variable py_int : string -> option Z.

(** One iteration of [for anime_elem in root.findall('anime')]. *)
Definition anime_step (lk : lookup) (a : anime_elem) : result lookup :=
  match attr_aid a with
  | None => Ok lk
  | Some aid_text =>
      if is_empty aid_text then Ok lk
      else
        match py_int aid_text with
        | None => Raise ValueError
        | Some aid =>
            let st :=
              title_loop aid
                {| titles_list := []; cur_main_title := None;
                   cur_titles := titles lk; cur_abbreviations := abbreviations lk |}
                (title_elems a) in
            Ok {| abbreviations := cur_abbreviations st;
                  titles := cur_titles st;
                  anime_data :=
                    dict_set Z.eqb (anime_data lk) aid
                      {| aid := aid;
                         main_title := cur_main_title st;
                         title_list := titles_list st;
                         anidb_url := "https://anidb.net/?aid=" ++ str_of_int aid |} |}
        end
  end.

(** [parse_anime_titles(xml_path)].  The argument is the parsed file: [None]
    when [xml_path] does not exist, else the [<anime>] children of the root.
    The result is [None] for the empty dictionary the function returns when
    the file is missing.  The progress lines the function prints are left
    out. *)
Definition parse_anime_titles (xml : option (list anime_elem)) : result (option lookup) :=
  match xml with
  | None => Ok None
  | Some root =>
      lk <- for_each anime_step root empty_lookup ;;
      Ok (Some lk)
  end.

End Parse.

(** An element of the list [search_anime] returns: [(aid, main_title, anidb_url)]. *)
Definition hit : Type := (Z * option string * string)%type.

Definition hit_eqb (a b : hit) : bool :=
  let '(aid1, t1, u1) := a in
  let '(aid2, t2, u2) := b in
  (aid1 =? aid2)%Z &&
  match t1, t2 with
  | Some x, Some y => (x =? y)%string
  | None, None => true
  | _, _ => false
  end &&
  (u1 =? u2)%string.

(** [h in results] *)
Definition hit_in (h : hit) (results : list hit) : bool := existsb (hit_eqb h) results.

Definition hit_of (aid : Z) (a : anime) : hit := (aid, main_title a, anidb_url a).

(** One iteration of the loop over [lookup['abbreviations'].items()]. *)
Definition abbreviation_step (lk : lookup) (query_lower : string)
  (results : list hit) (item : string * Z) : result (list hit) :=
  let '(abbr, aid) := item in
  if contains query_lower abbr || contains abbr query_lower then
    anime <- getitem Z.eqb (anime_data lk) aid ;;
    Ok (results ++ [hit_of aid anime])%list
  else Ok results.

(** One iteration of the loop over [lookup['titles'].items()]. *)
Definition title_match_step (lk : lookup) (query_lower : string)
  (results : list hit) (item : string * Z) : result (list hit) :=
  let '(title, aid) := item in
  if contains query_lower title then
    probe <- getitem Z.eqb (anime_data lk) aid ;;
    if negb (hit_in (aid, Some title, anidb_url probe) results) then
      anime <- getitem Z.eqb (anime_data lk) aid ;;
      Ok (results ++ [hit_of aid anime])%list
    else Ok results
  else Ok results.

(** The partial match in abbreviations, from an empty [results]. *)
Definition partial_abbreviations (lk : lookup) (query_lower : string) : result (list hit) :=
  for_each (abbreviation_step lk query_lower) (abbreviations lk) [].

(** The partial match in titles, continuing from [results]. *)
Definition partial_titles (lk : lookup) (query_lower : string) (results : list hit)
  : result (list hit) :=
  for_each (title_match_step lk query_lower) (titles lk) results.

(** [search_anime(lookup, query)] *)
Definition search_anime (lk : lookup) (query : string) : result (list hit) :=
  let query_lower := lower query in
  match dict_get String.eqb (abbreviations lk) query_lower with
  | Some aid =>
      anime <- getitem Z.eqb (anime_data lk) aid ;;
      Ok [hit_of aid anime]
  | None =>
      match dict_get String.eqb (titles lk) query_lower with
      | Some aid =>
          anime <- getitem Z.eqb (anime_data lk) aid ;;
          Ok [hit_of aid anime]
      | None =>
          results <- partial_abbreviations lk query_lower ;;
          results <- partial_titles lk query_lower results ;;
          Ok (firstn 10 results)
      end
  end.

(** [WEBHOOK_URL] *)
Definition WEBHOOK_URL : string := "http://your-n8n-instance/webhook/teachhanna".

(** How an f-string renders a value that is a str or None. *)
Definition fmt (s : option string) : string :=
  match s with
  | Some v => v
  | None => "None"
  end.

Section Inject.

(** [str(uuid.uuid4())], [datetime.utcnow().isoformat()] and the outcome of
    [requests.post] at the item numbered [idx]. *)
Variable uuid4 : Z -> string.
Variable utcnow_isoformat : Z -> string.
Variable post : Z -> Webhook.payload -> result Webhook.response.

(** The payload built for one entry of [lookup['anime_data']]. *)
Definition inject_payload (idx : Z) (anime_data : anime) : Webhook.payload :=
  let titles_str := String.concat ", " (map text (title_list anime_data)) in
  {| Webhook.id := uuid4 idx;
     Webhook.text := fmt (main_title anime_data) ++ " - " ++ titles_str;
     Webhook.url := Some (anidb_url anime_data);
     Webhook.title := main_title anime_data;
     Webhook.source_type := "anidb_metadata";
     Webhook.confidence := 0x1.e666666666666p-1%float;
     Webhook.timestamp := utcnow_isoformat idx ++ "Z";
     Webhook.sourceUser := None;
     Webhook.tags := ["anime"; "anidb"; "metadata"];
     Webhook.related_entities := map text (firstn 5 (title_list anime_data)) |}.

(** One iteration of the loop of [inject_to_knowledge_base]; the state is
    [(success_count, error_count)]. *)
Definition inject_item (total : Z) (counts : Z * Z) (item : Z * (Z * anime)) : io (Z * Z) :=
  let '(success_count, error_count) := counts in
  let '(idx, (_, anime_data)) := item in
  (if (idx mod 500 =? 0)%Z
   then print (MsgProgress idx total success_count error_count)
   else io_ret tt) ;;
  let payload := inject_payload idx anime_data in
  try_except
    (emit (HttpPost WEBHOOK_URL payload) ;;
     response <~ lift (post idx payload) ;;
     if (Webhook.status_code response =? 200)%Z || (Webhook.status_code response =? 201)%Z
     then io_ret (success_count + 1, error_count)
     else
       print (MsgHttpStatus (Webhook.status_code response) (main_title anime_data)) ;;
       io_ret (success_count, error_count + 1))
    (fun e =>
       print (MsgPostError (main_title anime_data) e) ;;
       io_ret (success_count, error_count + 1)).

(** [inject_to_knowledge_base(lookup)]; the value is the final
    [(success_count, error_count)], which the last line printed reports. *)
Definition inject_to_knowledge_base (lk : lookup) : io (Z * Z) :=
  print MsgInjecting ;;
  let total := Z.of_nat (length (anime_data lk)) in
  counts <~ io_for_each (inject_item total) (enumerate 1 (anime_data lk)) (0, 0) ;;
  print (MsgInjectionComplete (fst counts) (snd counts)) ;;
  io_ret counts.

End Inject.

End AnimeLookup.

(** ** scrape_to_n8n.py *)

Module ScrapeToN8n.

(** [load_excluded_domains_json(filepath)]: the set it returns, as a list
    without repetition. *)
Definition load_excluded_domains_json (file : exclusions_file) : list string :=
  match file with
  | NoFile => []
  | BadJson => []
  | Json entries => nodup string_dec (domains_of entries)
  end.

(** What the scraper keeps of a fetched page: [soup.get_text(...)] and
    [soup.title.string] when the page has a title with a string. *)
Record page : Type := {
  page_text : string;
  title_string : option string
}.

(** The function never assigns [facts] or [payload], and the module defines
    neither: reading either name raises NameError. *)
Definition facts : result (list Webhook.payload) := Raise (NameError "facts").
Definition payload : result Webhook.payload := Raise (NameError "payload").

Section Scrape.

(** [urlparse(url).netloc], or the ValueError [urlparse] raises. *)
Variable urlparse_netloc : string -> result string.
(** [requests.get] followed by [raise_for_status] and the HTML parse: the
    page, or the exception one of them raises. *)
Variable fetch : string -> result page.
Variable uuid4 : string -> string.
(** The outcome of the [i]-th [requests.post]. *)
Variable post : Z -> Webhook.payload -> result Webhook.response.

(** The [try] block run for a URL that is not excluded. *)
Definition scrape_url (url : string) : io unit :=
  try_except
    (print (MsgScraping url) ;;
     emit (HttpGet url) ;;
     soup <~ lift (fetch url) ;;
     let text := page_text soup in
     let title :=
       match title_string soup with
       | Some t => strip t
       | None => url
       end in
     print (MsgScrapedText (substring 0 500 text)) ;;
     let fact_id := uuid4 url in
     fs <~ lift facts ;;
     p <~ lift payload ;;
     io_ret tt)
    (fun e => print (MsgErrorScraping url e)).

(** [urlparse(url).netloc.lower()] *)
Definition domain_of (url : string) : result string :=
  netloc <- urlparse_netloc url ;;
  Ok (lower netloc).

(** One iteration of [for url in urls]. *)
Definition url_step (excluded_domains : list string) (_ : unit) (url : string) : io unit :=
  domain <~ lift (domain_of url) ;;
  if domain_excluded excluded_domains domain
  then print (MsgSkippingExcluded domain)
  else scrape_url url.

(** One iteration of [for i, fact in enumerate(facts, 1)]. *)
Definition send_fact (webhook_url : string) (total : Z) (_ : unit) (item : Z * Webhook.payload)
  : io unit :=
  let '(i, fact) := item in
  print (MsgSendingFact i total webhook_url) ;;
  emit (HttpPost webhook_url fact) ;;
  r <~ lift (post i fact) ;;
  print (MsgStatus (Webhook.status_code r)) ;;
  print (MsgResponse (Webhook.response_text r)).

(** The last [try] block of [scrape_and_send_to_n8n], for a given value of
    [facts]. *)
Definition send_facts (webhook_url : string) (fs : list Webhook.payload) : io unit :=
  try_except
    (io_for_each (send_fact webhook_url (Z.of_nat (length fs))) (enumerate 1 fs) tt)
    (fun e => print (MsgErrorSending e)).

(** [scrape_and_send_to_n8n(urls, webhook_url, ca_cert_path,
    excluded_domains_path)]; [tags] and [related_entities] are the lines
    read at the two prompts. *)
Definition scrape_and_send_to_n8n (tags related_entities : string)
  (urls : list string) (webhook_url : string)
  (excluded_domains_path : option exclusions_file) : io unit :=
  let excluded_domains :=
    match excluded_domains_path with
    | Some file => load_excluded_domains_json file
    | None => []
    end in
  let tag_list := comma_list (strip tags) in
  let related_list := comma_list (strip related_entities) in
  io_for_each (url_step excluded_domains) urls tt ;;
  fs <~ lift facts ;;
  match fs with
  | [] => print MsgNoFacts
  | _ :: _ => send_facts webhook_url fs
  end.

End Scrape.

End ScrapeToN8n.

(** ** manual_fact_to_n8n.py *)

Module ManualFact.

(** [load_excluded_domains_json(filepath)] *)
Definition load_excluded_domains_json (file : exclusions_file) : list string :=
  match file with
  | NoFile => []
  | BadJson => []
  | Json entries => nodup string_dec (domains_of entries)
  end.

(** [url.split('/')[2].lower() if '://' in url else url.lower()] *)
Definition domain_of (url : string) : result string :=
  if contains "://" url then
    match nth_error (split "/" url) 2 with
    | Some part => Ok (lower part)
    | None => Raise IndexError
    end
  else Ok (lower url).

(** [input(prompt)]: the next line of standard input, EOFError at its end. *)
Definition input (stdin : list string) : result (string * list string) :=
  match stdin with
  | line :: rest => Ok (line, rest)
  | [] => Raise EOFError
  end.

Section Manual.

(** [float(s)], or [None] where it raises ValueError. *)
Variable py_float : string -> option float.
Variable uuid4 : Z -> string.
Variable utcnow_isoformat : Z -> string.
(** The outcome of the [requests.post] of the [n]-th pass of the loop. *)
Variable post : Z -> Webhook.payload -> result Webhook.response.

(** The value of [confidence] after the [try] around [float]. *)
Definition parse_confidence (confidence : string) : float :=
  if is_empty confidence then 1%float
  else
    match py_float confidence with
    | Some f => f
    | None => 1%float
    end.

(** What one pass of [while True] decides. *)
Inductive pass : Type :=
| Continue (stdin : list string)
| Break.

(** The body of [while True], at its [n]-th pass. *)
Definition loop_body (webhook_url : string) (excluded_domains : list string)
  (n : Z) (stdin : list string) : io pass :=
  '(url, stdin) <~ lift (input stdin) ;;
  let url := strip url in
  excluded <~
    (if is_empty url then io_ret false
     else
       domain <~ lift (domain_of url) ;;
       if domain_excluded excluded_domains domain
       then print (MsgSkippingExcluded domain) ;; io_ret true
       else io_ret false) ;;
  if (excluded : bool) then io_ret (Continue stdin)
  else
    '(title, stdin) <~ lift (input stdin) ;;
    let title := strip title in
    '(text, stdin) <~ lift (input stdin) ;;
    let text := strip text in
    if lower text =? "quit" then print MsgExiting ;; io_ret Break
    else
      '(tags, stdin) <~ lift (input stdin) ;;
      let tag_list := comma_list (strip tags) in
      '(source_type, stdin) <~ lift (input stdin) ;;
      let source_type := if is_empty (strip source_type) then "manual" else strip source_type in
      '(confidence, stdin) <~ lift (input stdin) ;;
      let confidence := parse_confidence (strip confidence) in
      '(related_entities, stdin) <~ lift (input stdin) ;;
      let related_list := comma_list (strip related_entities) in
      let fact_id := uuid4 n in
      let payload :=
        {| Webhook.id := fact_id;
           Webhook.text := text;
           Webhook.url := if is_empty url then None else Some url;
           Webhook.title := if is_empty title then None else Some title;
           Webhook.source_type := source_type;
           Webhook.confidence := confidence;
           Webhook.timestamp := utcnow_isoformat n ++ "Z";
           Webhook.sourceUser := None;
           Webhook.tags := tag_list;
           Webhook.related_entities := related_list |} in
      try_except
        (print (MsgSendingPayload webhook_url) ;;
         emit (HttpPost webhook_url payload) ;;
         r <~ lift (post n payload) ;;
         print (MsgStatus (Webhook.status_code r)) ;;
         print (MsgResponse (Webhook.response_text r)))
        (fun e => print (MsgErrorSending e)) ;;
      io_ret (Continue stdin).

(** [while True: ...]: every pass reads a line first, so [fuel] above the
    number of lines left is never used up. *)
Fixpoint while_true (fuel : nat) (webhook_url : string) (excluded_domains : list string)
  (n : Z) (stdin : list string) : io unit :=
  match fuel with
  | O => lift (Raise EOFError)
  | S fuel' =>
      p <~ loop_body webhook_url excluded_domains n stdin ;;
      match p with
      | Break => io_ret tt
      | Continue stdin' => while_true fuel' webhook_url excluded_domains (n + 1) stdin'
      end
  end.

(** [manual_fact_entry_and_send(webhook_url, ca_cert_path,
    excluded_domains_path)], on the lines standard input holds. *)
Definition manual_fact_entry_and_send (webhook_url : string)
  (excluded_domains_path : option exclusions_file) (stdin : list string) : io unit :=
  let excluded_domains :=
    match excluded_domains_path with
    | Some file => load_excluded_domains_json file
    | None => []
    end in
  while_true (S (length stdin)) webhook_url excluded_domains 1 stdin.

End Manual.

End ManualFact.

(** ** Library functions at the inputs of the examples

    [int], [float] and [urlparse] are parameters of the definitions above.
    The functions below stand in for them where a run is evaluated: each
    agrees with the library function on the inputs it accepts. *)

Module Library.

Definition digit_value (c : ascii) : option Z :=
  let n := nat_of_ascii c in
  if (48 <=? n)%nat && (n <=? 57)%nat then Some (Z.of_nat (n - 48)) else None.

Fixpoint digits_value (acc : Z) (s : string) : option Z :=
  match s with
  | EmptyString => Some acc
  | String c rest =>
      match digit_value c with
      | Some d => digits_value (10 * acc + d) rest
      | None => None
      end
  end.

(** [int(s)] for a non-empty string of decimal digits; other strings are
    rejected. *)
Definition int_of_digits (s : string) : option Z :=
  if is_empty s then None else digits_value 0 s.

(** [float(s)] for a non-empty string of at most fifteen decimal digits; other
    strings are rejected. *)
Definition float_of_digits (s : string) : option float :=
  if (15 <? String.length s)%nat then None
  else
    match int_of_digits s with
    | Some n => Some (PrimFloat.of_uint63 (Uint63.of_Z n))
    | None => None
    end.

Definition is_alpha (c : ascii) : bool := is_upper c || is_lower c.

Definition is_digit (c : ascii) : bool := negb (is_none (digit_value c)).

Definition is_scheme_char (c : ascii) : bool :=
  is_alpha c || is_digit c || Ascii.eqb c "+" || Ascii.eqb c "-" || Ascii.eqb c ".".

Fixpoint all_chars (p : ascii -> bool) (s : string) : bool :=
  match s with
  | EmptyString => true
  | String c rest => p c && all_chars p rest
  end.

(** The text before the first [":"], and the text after it. *)
Fixpoint split_colon (s : string) : option (string * string) :=
  match s with
  | EmptyString => None
  | String c rest =>
      if Ascii.eqb c ":" then Some (EmptyString, rest)
      else
        match split_colon rest with
        | Some (before, after) => Some (String c before, after)
        | None => None
        end
  end.

(** [url] without its scheme, when it starts with one. *)
Definition drop_scheme (url : string) : string :=
  match split_colon url with
  | Some (String c scheme, rest) =>
      if is_alpha c && all_chars is_scheme_char scheme then rest else url
  | _ => url
  end.

(** The text before the first of ["/"], ["?"] and ["#"]. *)
Fixpoint until_delimiter (s : string) : string :=
  match s with
  | EmptyString => EmptyString
  | String c rest =>
      if Ascii.eqb c "/" || Ascii.eqb c "?" || Ascii.eqb c "#" then EmptyString
      else String c (until_delimiter rest)
  end.

(** [urlparse(url).netloc] for an ASCII URL without control characters or
    leading blanks: the text between ["//"] and the next delimiter, and
    ValueError when only one of the two square brackets occurs in it. *)
Definition netloc_of (url : string) : result string :=
  match drop_scheme url with
  | String "/" (String "/" rest) =>
      let netloc := until_delimiter rest in
      if xorb (contains "[" netloc) (contains "]" netloc) then Raise ValueError
      else Ok netloc
  | _ => Ok EmptyString
  end.

End Library.

(** ** Properties the specification names *)

Module Spec.

Import AnimeLookup.

(** Every id that is a value of [abbreviations] or of [titles] is a key of
    [anime_data]. *)
Definition referential_integrity (lk : lookup) : Prop :=
  (forall abbr aid, In (abbr, aid) (abbreviations lk) ->
     dict_get Z.eqb (anime_data lk) aid <> None) /\
  (forall title aid, In (title, aid) (titles lk) ->
     dict_get Z.eqb (anime_data lk) aid <> None).

(** The titles of an entry the parser keeps: those with a non-empty text,
    each with its type tag. *)
Fixpoint kept_titles (ts : list title_elem) : list (string * string) :=
  match ts with
  | [] => []
  | t :: rest =>
      match elem_text t with
      | Some (String c s) =>
          (String c s, attr_default (attr_type t) "unknown") :: kept_titles rest
      | _ => kept_titles rest
      end
  end.

Definition tagged_main (t : string * string) : bool := snd t =? "main".

(** The policy as the specification words it: the first title tagged
    ["main"], else the first title. *)
Definition first_main_else_first (ts : list title_elem) : option string :=
  match filter tagged_main (kept_titles ts) with
  | t :: _ => Some (fst t)
  | [] => option_map fst (hd_error (kept_titles ts))
  end.

(** The last kept title tagged ["main"], else the first kept title. *)
Definition last_main_else_first (ts : list title_elem) : option string :=
  match rev (filter tagged_main (kept_titles ts)) with
  | t :: _ => Some (fst t)
  | [] => option_map fst (hd_error (kept_titles ts))
  end.

(** The partial-match test of the abbreviation loop. *)
Definition abbreviation_matches (query_lower : string) (item : string * Z) : bool :=
  contains query_lower (fst item) || contains (fst item) query_lower.

(** The hit [search_anime] builds for an id, when the id has a record. *)
Definition hit_for (lk : lookup) (aid : Z) : option hit :=
  option_map (hit_of aid) (dict_get Z.eqb (anime_data lk) aid).

(** The hits of the items of a table, in the order of the table. *)
Fixpoint hits_of (lk : lookup) (items : list (string * Z)) : list hit :=
  match items with
  | [] => []
  | (_, aid) :: rest =>
      match hit_for lk aid with
      | Some h => h :: hits_of lk rest
      | None => hits_of lk rest
      end
  end.

(** Tier 3: the hits of the abbreviation keys that contain the query or are
    contained in it, in key order. *)
Definition tier3 (lk : lookup) (query_lower : string) : list hit :=
  hits_of lk (filter (abbreviation_matches query_lower) (abbreviations lk)).

(** What the title loop of the parser maintains: the values of a table are
    the id being read or ids that already have a record. *)
Definition ids_known (aid : Z) (data : list (Z * anime)) (table : list (string * Z)) : Prop :=
  forall k v, In (k, v) table -> v = aid \/ dict_get Z.eqb data v <> None.

(** The id of a hit. *)
Definition hit_aid (h : hit) : Z := fst (fst h).

(** The payload [inject_to_knowledge_base] posts for a numbered item of
    [anime_data], and whether that submission succeeds. *)
Definition item_payload (uuid4 utcnow_isoformat : Z -> string)
  (item : Z * (Z * anime)) : Webhook.payload :=
  inject_payload uuid4 utcnow_isoformat (fst item) (snd (snd item)).

(** A submission succeeded: the request returned, with status 200 or 201. *)
Definition accepted (r : result Webhook.response) : bool :=
  match r with
  | Ok response =>
      (Webhook.status_code response =? 200)%Z || (Webhook.status_code response =? 201)%Z
  | Raise _ => false
  end.

(** Every key of a string table is lower-case. *)
Definition keys_lower (table : list (string * Z)) : Prop :=
  forall k v, In (k, v) table -> lower k = k.

(** The facts the last loop of the scraper tries to send, numbered from [i]:
    all up to and including the first whose request raises. *)
Fixpoint attempted (post : Z -> Webhook.payload -> result Webhook.response)
  (i : Z) (fs : list Webhook.payload) : list Webhook.payload :=
  match fs with
  | [] => []
  | f :: rest =>
      f :: match post i f with
           | Ok _ => attempted post (i + 1) rest
           | Raise _ => []
           end
  end.

Definition item_accepted (uuid4 utcnow_isoformat : Z -> string)
  (post : Z -> Webhook.payload -> result Webhook.response)
  (item : Z * (Z * anime)) : bool :=
  accepted (post (fst item) (item_payload uuid4 utcnow_isoformat item)).

End Spec.

Import AnimeLookup Spec.

(** ** Worked catalog *)

Module Catalog.

Definition title (t ty : string) : title_elem :=
  {| elem_text := Some t; attr_type := Some ty; attr_lang := Some "en" |}.

(** One Piece with an abbreviation and a second official title, Jujutsu
    Kaisen, and Monster. *)
Definition catalog : list anime_elem :=
  [ {| attr_aid := Some "21";
       title_elems := [title "One Piece" "main"; title "OP" "short";
                       title "One Piece TV" "official"] |};
    {| attr_aid := Some "6594";
       title_elems := [title "Jujutsu Kaisen" "main"] |};
    {| attr_aid := Some "1453";
       title_elems := [title "Monster" "main"] |} ].

Definition tables : lookup :=
  match parse_anime_titles Library.int_of_digits (Some catalog) with
  | Ok (Some lk) => lk
  | _ => empty_lookup
  end.

Definition one_piece : hit := (21, Some "One Piece", "https://anidb.net/?aid=21").

Definition jujutsu_kaisen : hit :=
  (6594, Some "Jujutsu Kaisen", "https://anidb.net/?aid=6594").

Definition monster : hit := (1453, Some "Monster", "https://anidb.net/?aid=1453").

(** An entry with two titles tagged ["main"]. *)
Definition two_mains : anime_elem :=
  {| attr_aid := Some "5";
     title_elems := [title "Opera" "official"; title "La Traviata" "main";
                     title "Traviata" "main"] |}.

End Catalog.

(** ** Worked runs *)

Module Scenario.

Definition uuid4 (n : Z) : string := "uuid-" ++ str_of_int n.

Definition utcnow_isoformat (n : Z) : string := "2026-02-01T12:00:0" ++ str_of_int n.

Definition ok_response : Webhook.response :=
  {| Webhook.status_code := 200; Webhook.response_text := "ok" |}.

Definition server_error : Webhook.response :=
  {| Webhook.status_code := 500; Webhook.response_text := "error" |}.

(** A webhook that accepts every request. *)
Definition post_ok (_ : Z) (_ : Webhook.payload) : result Webhook.response := Ok ok_response.

(** A webhook that answers the second request with HTTP 500. *)
Definition post_second_500 (i : Z) (_ : Webhook.payload) : result Webhook.response :=
  if (i =? 2)%Z then Ok server_error else Ok ok_response.

(** A webhook whose second request fails in the network. *)
Definition post_second_raises (i : Z) (_ : Webhook.payload) : result Webhook.response :=
  if (i =? 2)%Z then Raise RequestException else Ok ok_response.

(** A page every URL serves. *)
Definition fetch (_ : string) : result ScrapeToN8n.page :=
  Ok {| ScrapeToN8n.page_text := "Example Domain";
        ScrapeToN8n.title_string := Some "Example" |}.

(** The URLs of the script's own [__main__] block. *)
Definition urls : list string := ["https://example.com"; "https://another-example.com"].

Definition webhook_url : string := "https://your-n8n-instance/webhook/your-webhook-id".

Definition fact (n : Z) : Webhook.payload :=
  {| Webhook.id := uuid4 n;
     Webhook.text := "fact";
     Webhook.url := None;
     Webhook.title := None;
     Webhook.source_type := "web";
     Webhook.confidence := 0.5%float;
     Webhook.timestamp := utcnow_isoformat n ++ "Z";
     Webhook.sourceUser := None;
     Webhook.tags := [];
     Webhook.related_entities := [] |}.

(** What an operator types to enter one fact with confidence 5, then quit:
    URL, title, text, tags, source type, confidence, related entities; then a
    blank URL, a blank title, and ["quit"]. *)
Definition typed : list string :=
  [""; ""; "Water is wet"; ""; ""; "5"; ""; ""; ""; "quit"].

End Scenario.

(** ** anime_lookup.py: the Shoko queries and the command line *)

Module Main.

Import AnimeLookup.

(** [s[n:]] *)
Fixpoint drop (n : nat) (s : string) : string :=
  match n, s with
  | O, _ => s
  | S n', String _ rest => drop n' rest
  | S _, EmptyString => EmptyString
  end.

(** A decoded JSON value.  An object is the dictionary [json.loads] builds,
    as an association list. *)
#[warnings="-register-all"]
Inductive json : Type :=
| JNull
| JBool (b : bool)
| JInt (n : Z)
| JFloat (f : float)
| JStr (s : string)
| JList (items : list json)
| JObj (fields : list (string * json)).

(** [bool(v)] *)
Definition truthy (v : json) : bool :=
  match v with
  | JNull => false
  | JBool b => b
  | JInt n => negb (n =? 0)%Z
  | JFloat f => negb (PrimFloat.eqb f 0%float)
  | JStr s => negb (is_empty s)
  | JList items => match items with [] => false | _ :: _ => true end
  | JObj fields => match fields with [] => false | _ :: _ => true end
  end.

(** [anime.get(key)]: the value, None when the key is missing. *)
Definition get (fields : list (string * json)) (key : string) : json :=
  match dict_get String.eqb fields key with
  | Some v => v
  | None => JNull
  end.

(** [anime.get(key, default)] *)
Definition get_default (fields : list (string * json)) (key : string) (default : json) : json :=
  match dict_get String.eqb fields key with
  | Some v => v
  | None => default
  end.

(** What [search_shoko] reads of a response: its status, and the value
    [response.json()] returns or the exception it raises. *)
Record shoko_response : Type := {
  shoko_status : Z;
  shoko_json : result json
}.

(** The dictionary [search_shoko] returns. *)
Record shoko_result : Type := {
  r_id : json;
  r_name : json;
  r_description : json;
  r_type : json;
  r_year : json;
  r_episodes : json;
  r_anidb_id : json;
  r_anidb_url : option string;
  r_shoko_url : option string
}.

Definition SHOKO_HOST : string := "your-shoko-server.local".
Definition SHOKO_PORT : Z := 8112.
Definition SHOKO_BASE_URL : string :=
  "http://" ++ SHOKO_HOST ++ ":" ++ str_of_int SHOKO_PORT ++ "/api/v3".

(** An exception inside [search_shoko]: one a library call raised, or the
    AttributeError of [.get] on a value that is no dictionary. *)
Inductive shoko_exn : Type :=
| LibraryError (e : exn)
| AttributeError.

(** The lines [main], [parse_anime_titles] and [search_shoko] print. *)
Inductive said : Type :=
| FileNotFound
| Parsing
| Loaded (anime : Z)
| LoadedAbbreviations (abbreviations : Z)
| LoadedTitles (titles : Z)
| ShokoSearchError (e : shoko_exn)
| Searching (query : string)
| CliHit (h : hit)
| CliUrl (url : string)
| CliNoResults
| Banner
| ReplHitWithUrl (h : hit)
| ReplHit (h : hit)
| ReplNoResults
| Goodbye
| ReplError (e : exn).

(** What a run of [main] or of a Shoko query does: a line it prints, or an
    event of the injection. *)
Inductive action : Type :=
| Say (m : said)
| Do (e : event).

Section Shoko.

(** [requests.get(url, params=params, ...)]: the response, or the exception
    it raises.  The timeout is not part of the key. *)
Variable http_get : string -> list (string * json) -> result shoko_response.
(** [str(v)] for the values an f-string has no short rendering of: floats,
    lists and objects. *)
Variable render : json -> string.

(** How an f-string renders a JSON value. *)
Definition fmt_json (v : json) : string :=
  match v with
  | JNull => "None"
  | JBool true => "True"
  | JBool false => "False"
  | JInt n => str_of_int n
  | JStr s => s
  | other => render other
  end.

(** [check_shoko_health()]: every exception is swallowed. *)
Definition check_shoko_health : list action * bool :=
  ([Do (HttpGet (SHOKO_BASE_URL ++ "/series"))],
   match http_get (SHOKO_BASE_URL ++ "/series") [] with
   | Ok response => (shoko_status response =? 200)%Z
   | Raise _ => false
   end).

(** The dictionary built from the first element of the answer. *)
Definition shoko_result_of (query : string) (anime : list (string * json)) : shoko_result :=
  {| r_id := get anime "id";
     r_name := get_default anime "name" (JStr query);
     r_description := get_default anime "description" (JStr "");
     r_type := get_default anime "type" (JStr "Unknown");
     r_year := get anime "year";
     r_episodes := get anime "episodeCount";
     r_anidb_id := get anime "anidbId";
     r_anidb_url :=
       if truthy (get anime "anidbId")
       then Some ("https://anidb.net/?aid=" ++ fmt_json (get anime "anidbId"))
       else None;
     r_shoko_url :=
       if truthy (get anime "id")
       then Some ("http://" ++ SHOKO_HOST ++ ":" ++ str_of_int SHOKO_PORT ++ "/#/anime/"
                  ++ fmt_json (get anime "id"))
       else None |}.

(** [params={"query": query, "limit": 1}] *)
Definition search_params (query : string) : list (string * json) :=
  [("query", JStr query); ("limit", JInt 1)].

(** The body of the [try] of [search_shoko], after the request was sent:
    the value returned, or the exception raised. *)
Definition shoko_try (query : string) : shoko_exn + option shoko_result :=
  match http_get (SHOKO_BASE_URL ++ "/search") (search_params query) with
  | Raise e => inl (LibraryError e)
  | Ok response =>
      if negb (shoko_status response =? 200)%Z then inr None
      else
        match shoko_json response with
        | Raise e => inl (LibraryError e)
        | Ok data =>
            if negb (truthy data) then inr None
            else
              match data with
              | JList (anime :: _) =>
                  match anime with
                  | JObj fields => inr (Some (shoko_result_of query fields))
                  | _ => inl AttributeError
                  end
              | _ => inr None
              end
        end
  end.

(** [search_shoko(query)] *)
Definition search_shoko (query : string) : list action * option shoko_result :=
  let (t, healthy) := check_shoko_health in
  if negb healthy then (t, None)
  else
    match shoko_try query with
    | inr r => ((t ++ [Do (HttpGet (SHOKO_BASE_URL ++ "/search"))])%list, r)
    | inl e =>
        ((t ++ [Do (HttpGet (SHOKO_BASE_URL ++ "/search")); Say (ShokoSearchError e)])%list,
         None)
    end.

End Shoko.

(** What the terminal delivers at a prompt: a line, or an interrupt.  The
    end of the list is the end of the input. *)
Inductive key : Type :=
| Line (s : string)
| Interrupt.

(** What one pass of the prompt loop decides. *)
Inductive pass : Type :=
| Continue (rest : list key)
| Break.

(** How a run of [main] stands: it returned, or its prompt loop is still
    running after the passes it was given. *)
Inductive status : Type :=
| Returned
| Running.

(** The key leaves the prompt loop: [quit] in any casing and with any
    blanks around it, or an interrupt. *)
Definition exits (k : key) : bool :=
  match k with
  | Line l => lower (strip l) =? "quit"
  | Interrupt => true
  end.

(** The lines [parse_anime_titles] prints on the way to its result: that the
    file is missing; or that it parses the file and, when the loop did not
    raise, the sizes of the three tables. *)
Definition parse_says (xml : option (list anime_elem)) (parsed : result (option lookup))
  : list action :=
  match xml with
  | None => [Say FileNotFound]
  | Some _ =>
      Say Parsing ::
      match parsed with
      | Ok (Some lk) =>
          [Say (Loaded (Z.of_nat (length (anime_data lk))));
           Say (LoadedAbbreviations (Z.of_nat (length (abbreviations lk))));
           Say (LoadedTitles (Z.of_nat (length (titles lk))))]
      | _ => []
      end
  end.

Section Prompt.

Variable py_int : string -> option Z.
Variable uuid4 : Z -> string.
Variable utcnow_isoformat : Z -> string.
Variable post : Z -> Webhook.payload -> result Webhook.response.

(** The lines printed for the results of a query given on the command
    line. *)
Definition show_cli (results : list hit) : list action :=
  match results with
  | [] => [Say CliNoResults]
  | _ :: _ => flat_map (fun h => [Say (CliHit h); Say (CliUrl (snd h))]) results
  end.

(** The lines printed for the results of a query typed at the prompt, with
    the given line for a hit. *)
Definition show_repl (line : hit -> said) (found : result (list hit)) : list action :=
  match found with
  | Ok [] => [Say ReplNoResults]
  | Ok results => map (fun h => Say (line h)) results
  | Raise e => [Say (ReplError e)]
  end.

(** The body of [while True] in [main]: one prompt, with both handlers. *)
Definition prompt_pass (lk : lookup) (stdin : list key) : list action * pass :=
  match stdin with
  | [] => ([Say (ReplError EOFError)], Continue [])
  | Interrupt :: _ => ([Say Goodbye], Break)
  | Line l :: rest =>
      let user_input := strip l in
      if lower user_input =? "quit" then ([], Break)
      else if lower user_input =? "inject" then
        let (t, r) := inject_to_knowledge_base uuid4 utcnow_isoformat post lk in
        ((map Do t ++ match r with Ok _ => [] | Raise e => [Say (ReplError e)] end)%list,
         Continue rest)
      else if startswith (lower user_input) "search " then
        let query := strip (drop 7 user_input) in
        (show_repl ReplHitWithUrl (search_anime lk query), Continue rest)
      else
        (show_repl ReplHit (search_anime lk user_input), Continue rest)
  end.

(** [while True: ...], for at most [fuel] passes. *)
Fixpoint prompt_loop (fuel : nat) (lk : lookup) (stdin : list key) : list action * status :=
  match fuel with
  | O => ([], Running)
  | S fuel' =>
      match prompt_pass lk stdin with
      | (t, Break) => (t, Returned)
      | (t, Continue rest) =>
          let (t', s) := prompt_loop fuel' lk rest in ((t ++ t')%list, s)
      end
  end.

(** [main()]: [xml] is the catalog file as [parse_anime_titles] finds it,
    [argv] is [sys.argv[1:]], [stdin] what the terminal delivers, and [fuel]
    bounds the passes of the prompt loop. *)
Definition main (fuel : nat) (xml : option (list anime_elem)) (argv : list string)
  (stdin : list key) : list action * result status :=
  let parsed := parse_anime_titles py_int xml in
  let loading := parse_says xml parsed in
  match parsed with
  | Raise e => (loading, Raise e)
  | Ok None => (loading, Ok Returned)
  | Ok (Some lk) =>
      match argv with
      | _ :: _ =>
          let query := String.concat " " argv in
          match search_anime lk query with
          | Ok results =>
              ((loading ++ Say (Searching query) :: show_cli results)%list, Ok Returned)
          | Raise e => ((loading ++ [Say (Searching query)])%list, Raise e)
          end
      | [] =>
          let (t, s) := prompt_loop fuel lk stdin in
          ((loading ++ Say Banner :: t)%list, Ok s)
      end
  end.

End Prompt.

End Main.

(** ** What the tables, the runs and the loaders are compared with *)

Module Props.

Import AnimeLookup Spec.

(** The entries of [titles_list] for the titles of an entry: one for each
    title with a non-empty text, in order. *)
Fixpoint kept_infos (ts : list title_elem) : list title_info :=
  match ts with
  | [] => []
  | t :: rest =>
      match elem_text t with
      | Some (String c s) =>
          {| text := String c s;
             type := attr_default (attr_type t) "unknown";
             lang := attr_default (attr_lang t) "unknown" |} :: kept_infos rest
      | _ => kept_infos rest
      end
  end.

(** The record of an entry read with the id [aid]. *)
Definition record_of (aid : Z) (e : anime_elem) : anime :=
  {| aid := aid;
     main_title := last_main_else_first (title_elems e);
     title_list := kept_infos (title_elems e);
     anidb_url := "https://anidb.net/?aid=" ++ str_of_int aid |}.

(** The entry has an [aid] attribute that is not empty. *)
Definition has_aid (a : anime_elem) : bool :=
  match attr_aid a with
  | Some s => negb (is_empty s)
  | None => false
  end.

(** The entry is read with the id [k]. *)
Definition read_as (py_int : string -> option Z) (e : anime_elem) (k : Z) : Prop :=
  exists s, attr_aid e = Some s /\ is_empty s = false /\ py_int s = Some k.

(** The title element has the non-empty text [txt]. *)
Definition has_text (t : title_elem) (txt : string) : Prop :=
  elem_text t = Some txt /\ is_empty txt = false.

(** The URLs a run fetched, in order. *)
Fixpoint fetched (trace : list event) : list string :=
  match trace with
  | [] => []
  | HttpGet u :: rest => u :: fetched rest
  | _ :: rest => fetched rest
  end.


(** The hit is the hit of a record of the tables, for an id that is a
    value of one of the two string tables. *)
Definition from_tables (lk : lookup) (h : hit) : Prop :=
  exists key k a,
    (In (key, k) (abbreviations lk) \/ In (key, k) (titles lk)) /\
    dict_get Z.eqb (anime_data lk) k = Some a /\ h = hit_of k a.

(** No key of the tables matches the lower-cased query: no abbreviation
    contains it or is contained in it, and no title contains it. *)
Definition nothing_matches (lk : lookup) (query_lower : string) : Prop :=
  (forall item, In item (abbreviations lk) -> abbreviation_matches query_lower item = false) /\
  (forall title k, In (title, k) (titles lk) -> contains query_lower title = false).



(** The payload cites no URL, or a URL whose domain the manual entry reads
    and does not find excluded. *)
Definition cites_allowed_url (excluded_domains : list string) (p : Webhook.payload) : Prop :=
  forall u, Webhook.url p = Some u ->
    exists d, ManualFact.domain_of u = Ok d /\ domain_excluded excluded_domains d = false.



(** The progress lines of a run, in order, each with the four numbers it
    shows: [idx], [total], [success_count] and [error_count]. *)
Fixpoint progress_lines (trace : list event) : list (Z * Z * Z * Z) :=
  match trace with
  | [] => []
  | Printed (MsgProgress idx total success errors) :: rest =>
      (idx, total, success, errors) :: progress_lines rest
  | _ :: rest => progress_lines rest
  end.

(** The progress line stands at a multiple of 500 among [n] items, shows [n]
    as the total, and counts the outcomes of the items before its own. *)
Definition counts_items_before (n : Z) (line : Z * Z * Z * Z) : Prop :=
  let '(idx, total, success, errors) := line in
  (idx mod 500 = 0 /\ 0 < idx <= n /\ total = n /\ success + errors = idx - 1)%Z.

(** No element of the list is empty or has blanks around it. *)
Definition clean_list (l : list string) : Prop :=
  forall t, In t l -> is_empty t = false /\ strip t = t.

(** What the manual entry guarantees of a payload it builds from the
    operator's answers. *)
Definition typed_by_hand (p : Webhook.payload) : Prop :=
  strip (Webhook.text p) = Webhook.text p /\
  lower (Webhook.text p) <> "quit" /\
  Webhook.url p <> Some "" /\
  Webhook.title p <> Some "" /\
  is_empty (Webhook.source_type p) = false /\
  Webhook.sourceUser p = None /\
  clean_list (Webhook.tags p) /\
  clean_list (Webhook.related_entities p).

(** The string is empty or starts with a character that is not blank. *)
Definition starts_clean (s : string) : Prop :=
  match s with
  | EmptyString => True
  | String c _ => is_space c = false
  end.

End Props.

Import Props.

(** * Theorems *)

(** ** Dictionaries *)

Section DictFacts.

Context {V : Type}.

Lemma dict_set_In {K : Type} (eqb : K -> K -> bool) (d : list (K * V)) k v k' v' :
  In (k', v') (dict_set eqb d k v) -> In (k', v') d \/ v' = v.
Proof.
  induction d as [|[k0 v0] d IH]; simpl.
  - intros [H|[]]. inversion H. now right.
  - destruct (eqb k k0); simpl.
    + intros [H|H]; [inversion H; now right | left; now right].
    + intros [H|H]; [left; now left |].
      destruct (IH H) as [H'|H']; [left; now right | now right].
Qed.

Lemma dict_get_str_In (d : list (string * V)) k v :
  dict_get String.eqb d k = Some v -> In (k, v) d.
Proof.
  induction d as [|[k0 v0] d IH]; simpl; [discriminate|].
  destruct (String.eqb_spec k k0) as [->|_].
  - intros H. inversion H. now left.
  - intros H. right. now apply IH.
Qed.

Lemma dict_get_Z_set (d : list (Z * V)) k v k' :
  dict_get Z.eqb (dict_set Z.eqb d k v) k' =
  if (k' =? k)%Z then Some v else dict_get Z.eqb d k'.
Proof.
  induction d as [|[k0 v0] d IH]; simpl.
  - reflexivity.
  - destruct (Z.eqb_spec k k0) as [->|Hne]; simpl.
    + destruct (Z.eqb_spec k' k0); reflexivity.
    + rewrite IH. destruct (Z.eqb_spec k' k0) as [->|_]; [|reflexivity].
      destruct (Z.eqb_spec k0 k); [congruence | reflexivity].
Qed.

Lemma dict_get_Z_set_present (d : list (Z * V)) k v k' :
  dict_get Z.eqb d k' <> None -> dict_get Z.eqb (dict_set Z.eqb d k v) k' <> None.
Proof.
  intros H. rewrite dict_get_Z_set. destruct (k' =? k)%Z; [discriminate | exact H].
Qed.

End DictFacts.

(** ** Referential integrity of the parsed tables *)

Section ParseFacts.

Variable py_int : string -> option Z.

Lemma title_step_ids_known aid data st t :
  ids_known aid data (cur_titles st) ->
  ids_known aid data (cur_abbreviations st) ->
  ids_known aid data (cur_titles (title_step aid st t)) /\
  ids_known aid data (cur_abbreviations (title_step aid st t)).
Proof.
  intros Ht Ha. unfold title_step.
  destruct (elem_text t) as [txt|]; [|now split].
  destruct (is_empty txt); [now split|]. simpl. split.
  - intros k v Hin. apply dict_set_In in Hin as [Hin| ->]; [eauto | now left].
  - destruct (_ =? "short")%string; [|exact Ha].
    intros k v Hin. apply dict_set_In in Hin as [Hin| ->]; [eauto | now left].
Qed.

Lemma title_loop_ids_known aid data ts : forall st,
  ids_known aid data (cur_titles st) ->
  ids_known aid data (cur_abbreviations st) ->
  ids_known aid data (cur_titles (title_loop aid st ts)) /\
  ids_known aid data (cur_abbreviations (title_loop aid st ts)).
Proof.
  unfold title_loop. induction ts as [|t ts IH]; intros st Ht Ha; simpl.
  - now split.
  - destruct (title_step_ids_known aid data st t Ht Ha) as [Ht' Ha'].
    now apply IH.
Qed.

Lemma anime_step_integrity lk a lk' :
  referential_integrity lk ->
  anime_step py_int lk a = Ok lk' ->
  referential_integrity lk'.
Proof.
  intros [Ha Ht]. unfold anime_step.
  destruct (attr_aid a) as [s|]; [|intros H; inversion H; subst; now split].
  destruct (is_empty s); [intros H; inversion H; subst; now split|].
  destruct (py_int s) as [aid|]; [|discriminate].
  intros H. inversion H; subst; clear H.
  match goal with |- context [title_loop aid ?st0 ?ts] =>
    destruct (title_loop_ids_known aid (anime_data lk) ts st0) as [Ht' Ha']
  end.
  - intros k v Hin. right. simpl in Hin. eauto.
  - intros k v Hin. right. simpl in Hin. eauto.
  - split; simpl; intros k v Hin; rewrite dict_get_Z_set.
    + destruct (Z.eqb_spec v aid); [discriminate|].
      destruct (Ha' k v Hin); [contradiction | assumption].
    + destruct (Z.eqb_spec v aid); [discriminate|].
      destruct (Ht' k v Hin); [contradiction | assumption].
Qed.

Lemma anime_loop_integrity root : forall lk lk',
  referential_integrity lk ->
  for_each (anime_step py_int) root lk = Ok lk' ->
  referential_integrity lk'.
Proof.
  induction root as [|a root IH]; intros lk lk' Hlk; simpl.
  - intros H. inversion H. now subst.
  - destruct (anime_step py_int lk a) as [lk1|e] eqn:Hstep; simpl; [|discriminate].
    apply IH. eapply anime_step_integrity; eauto.
Qed.

Lemma empty_lookup_integrity : referential_integrity empty_lookup.
Proof. split; intros ? ? []. Qed.

End ParseFacts.

(** C8: in the tables [parse_anime_titles] returns for a catalog it accepts,
    every id that is a value of [abbreviations] or of [titles] is a key of
    [anime_data]. *)
Theorem parse_referential_integrity (py_int : string -> option Z)
  (root : list anime_elem) (lk : lookup) :
  parse_anime_titles py_int (Some root) = Ok (Some lk) ->
  referential_integrity lk.
Proof.
  unfold parse_anime_titles.
  destruct (for_each (anime_step py_int) root empty_lookup) as [lk1|e] eqn:Hloop;
    simpl; [|discriminate].
  intros H. inversion H; subst.
  eapply anime_loop_integrity; [apply empty_lookup_integrity | exact Hloop].
Qed.

Lemma catalog_parses :
  parse_anime_titles Library.int_of_digits (Some Catalog.catalog) = Ok (Some Catalog.tables).
Proof. reflexivity. Qed.

Lemma catalog_integrity : referential_integrity Catalog.tables.
Proof.
  apply (anime_loop_integrity Library.int_of_digits Catalog.catalog empty_lookup).
  - apply empty_lookup_integrity.
  - reflexivity.
Qed.

Lemma parse_referential_integrity_witness : referential_integrity Catalog.tables.
Proof.
  apply (parse_referential_integrity Library.int_of_digits Catalog.catalog).
  reflexivity.
Defined.

(** ** Search *)

Section SearchFacts.

Variable lk : lookup.
Variable query_lower : string.

Lemma getitem_known aid :
  dict_get Z.eqb (anime_data lk) aid <> None ->
  exists a, getitem Z.eqb (anime_data lk) aid = Ok a /\ hit_for lk aid = Some (hit_of aid a).
Proof.
  unfold getitem, hit_for.
  destruct (dict_get Z.eqb (anime_data lk) aid) as [a|]; [|congruence].
  intros _. now exists a.
Qed.

(** The abbreviation loop collects the hits of the matching keys in order. *)
Lemma abbreviation_loop_collects items :
  (forall k aid, In (k, aid) items -> dict_get Z.eqb (anime_data lk) aid <> None) ->
  forall results,
    for_each (abbreviation_step lk query_lower) items results =
    Ok (results ++ hits_of lk (filter (abbreviation_matches query_lower) items))%list.
Proof.
  induction items as [|[abbr aid] items IH]; intros Hknown results; simpl.
  - now rewrite app_nil_r.
  - unfold abbreviation_matches at 1. simpl.
    destruct (contains query_lower abbr || contains abbr query_lower); simpl.
    + destruct (getitem_known aid) as (a & Hget & Hhit); [eapply Hknown; now left|].
      rewrite Hget, Hhit. simpl. rewrite IH by (intros; eapply Hknown; right; eauto).
      now rewrite <- app_assoc.
    + apply IH. intros; eapply Hknown; right; eauto.
Qed.

Lemma hit_eqb_eq (a b : hit) : hit_eqb a b = true -> a = b.
Proof.
  destruct a as [[a1 t1] u1], b as [[a2 t2] u2]. unfold hit_eqb.
  rewrite !andb_true_iff. intros [[Ha Ht] Hu].
  apply Z.eqb_eq in Ha. apply String.eqb_eq in Hu. subst.
  destruct t1, t2; try discriminate; [apply String.eqb_eq in Ht; now subst | reflexivity].
Qed.

Lemma hit_in_In h results : hit_in h results = true -> In h results.
Proof.
  unfold hit_in. rewrite existsb_exists. intros (x & Hin & Heq).
  apply hit_eqb_eq in Heq. now subst.
Qed.

(** The title loop only appends, what it appends are hits of title keys that
    contain the query, and every such key ends with a hit for its id. *)
Lemma title_match_loop_appends items :
  (forall k aid, In (k, aid) items -> dict_get Z.eqb (anime_data lk) aid <> None) ->
  forall results,
  exists more,
    for_each (title_match_step lk query_lower) items results = Ok (results ++ more)%list /\
    (forall h, In h more ->
       exists title aid, In (title, aid) items /\ contains query_lower title = true /\
                         hit_for lk aid = Some h) /\
    (forall title aid, In (title, aid) items -> contains query_lower title = true ->
       exists h, In h (results ++ more)%list /\ hit_aid h = aid).
Proof.
  induction items as [|[title aid] items IH]; intros Hknown results; simpl.
  - exists []. rewrite app_nil_r. repeat split; intros; contradiction.
  - assert (Hrest : forall k v, In (k, v) items -> dict_get Z.eqb (anime_data lk) v <> None)
      by (intros; eapply Hknown; right; eauto).
    destruct (contains query_lower title) eqn:Hc; simpl.
    + destruct (getitem_known aid) as (a & Hget & Hhit); [eapply Hknown; now left|].
      rewrite Hget. simpl.
      destruct (hit_in (aid, Some title, anidb_url a) results) eqn:Hin; simpl.
      * destruct (IH Hrest results) as (more & Hrun & Hfrom & Hall).
        exists more. split; [exact Hrun|]. split.
        -- intros h Hh. destruct (Hfrom h Hh) as (t & i & Hti & Hct & Hhi).
           exists t, i. split; [now right | now split].
        -- intros t i [Heq|Hti] Hct; [|eauto].
           inversion Heq; subst. exists (i, Some t, anidb_url a). split; [|reflexivity].
           apply in_or_app. left. now apply hit_in_In.
      * destruct (IH Hrest (results ++ [hit_of aid a])%list) as (more & Hrun & Hfrom & Hall).
        exists (hit_of aid a :: more). rewrite <- app_assoc in Hrun, Hall. simpl in Hrun, Hall.
        split; [exact Hrun|]. split.
        -- intros h [<-|Hh].
           ++ exists title, aid. split; [now left | now split].
           ++ destruct (Hfrom h Hh) as (t & i & Hti & Hct & Hhi).
              exists t, i. split; [now right | now split].
        -- intros t i [Heq|Hti] Hct; [|eauto].
           inversion Heq; subst. exists (hit_of i a). split; [|reflexivity].
           apply in_or_app. right. now left.
    + destruct (IH Hrest results) as (more & Hrun & Hfrom & Hall).
      exists more. split; [exact Hrun|]. split.
      * intros h Hh. destruct (Hfrom h Hh) as (t & i & Hti & Hct & Hhi).
        exists t, i. split; [now right | now split].
      * intros t i [Heq|Hti] Hct; [|eauto].
        inversion Heq; subst. congruence.
Qed.

End SearchFacts.

Lemma search_exact_abbreviation lk query aid :
  dict_get String.eqb (abbreviations lk) (lower query) = Some aid ->
  dict_get Z.eqb (anime_data lk) aid <> None ->
  exists h, hit_for lk aid = Some h /\ search_anime lk query = Ok [h].
Proof.
  intros Habbr Hknown. destruct (getitem_known lk aid Hknown) as (a & Hget & Hhit).
  exists (hit_of aid a). split; [exact Hhit|].
  unfold search_anime. rewrite Habbr, Hget. reflexivity.
Qed.

Lemma search_exact_title lk query aid :
  dict_get String.eqb (abbreviations lk) (lower query) = None ->
  dict_get String.eqb (titles lk) (lower query) = Some aid ->
  dict_get Z.eqb (anime_data lk) aid <> None ->
  exists h, hit_for lk aid = Some h /\ search_anime lk query = Ok [h].
Proof.
  intros Habbr Htitle Hknown. destruct (getitem_known lk aid Hknown) as (a & Hget & Hhit).
  exists (hit_of aid a). split; [exact Hhit|].
  unfold search_anime. rewrite Habbr, Htitle, Hget. reflexivity.
Qed.

Lemma search_partial lk query :
  referential_integrity lk ->
  dict_get String.eqb (abbreviations lk) (lower query) = None ->
  dict_get String.eqb (titles lk) (lower query) = None ->
  exists tier4,
    partial_abbreviations lk (lower query) = Ok (tier3 lk (lower query)) /\
    partial_titles lk (lower query) (tier3 lk (lower query)) =
      Ok (tier3 lk (lower query) ++ tier4)%list /\
    search_anime lk query = Ok (firstn 10 (tier3 lk (lower query) ++ tier4)) /\
    (forall h, In h tier4 ->
       exists title aid, In (title, aid) (titles lk) /\
                         contains (lower query) title = true /\ hit_for lk aid = Some h) /\
    (forall title aid, In (title, aid) (titles lk) -> contains (lower query) title = true ->
       exists h, In h (tier3 lk (lower query) ++ tier4)%list /\ hit_aid h = aid).
Proof.
  intros [Ha Ht] Habbr Htitle.
  assert (H3 : partial_abbreviations lk (lower query) = Ok (tier3 lk (lower query))).
  { unfold partial_abbreviations. now rewrite abbreviation_loop_collects. }
  destruct (title_match_loop_appends lk (lower query) (titles lk) Ht (tier3 lk (lower query)))
    as (tier4 & Hrun & Hfrom & Hall).
  exists tier4. repeat split; try assumption.
  unfold search_anime. rewrite Habbr, Htitle, H3. simpl.
  unfold partial_titles. rewrite Hrun. reflexivity.
Qed.

(** On tables that keep their invariant no lookup of a record fails. *)
Lemma search_returns lk query :
  referential_integrity lk -> exists results, search_anime lk query = Ok results.
Proof.
  intros Hri.
  destruct (dict_get String.eqb (abbreviations lk) (lower query)) as [aid|] eqn:Habbr.
  { destruct (search_exact_abbreviation lk query aid Habbr) as (h & _ & Hrun); [|eauto].
    destruct Hri as [Ha _]. eapply Ha. apply dict_get_str_In. exact Habbr. }
  destruct (dict_get String.eqb (titles lk) (lower query)) as [aid|] eqn:Htitle.
  { destruct (search_exact_title lk query aid Habbr Htitle) as (h & _ & Hrun); [|eauto].
    destruct Hri as [_ Ht]. eapply Ht. apply dict_get_str_In. exact Htitle. }
  destruct (search_partial lk query Hri Habbr Htitle) as (tier4 & _ & _ & Hrun & _). eauto.
Qed.

(** [search_anime] depends on its query through [query.lower()] only:
    two queries with the same lower-casing get the same result, on any
    tables. *)
Theorem search_case_insensitive (lk : lookup) (q1 q2 : string) :
  lower q1 = lower q2 -> search_anime lk q1 = search_anime lk q2.
Proof. unfold search_anime. now intros ->. Qed.

Lemma search_case_insensitive_witness :
  search_anime Catalog.tables "JuJuTsU" = search_anime Catalog.tables "jujutsu".
Proof. apply (search_case_insensitive Catalog.tables "JuJuTsU" "jujutsu"). reflexivity. Defined.

Lemma lower_lower_char c : lower_char (lower_char c) = lower_char c.
Proof. destruct c as [[] [] [] [] [] [] [] []]; reflexivity. Qed.

Lemma lower_lower s : lower (lower s) = lower s.
Proof. induction s as [|c s IH]; simpl; [reflexivity|]. now rewrite lower_lower_char, IH. Qed.



(** With One Piece (id 21) abbreviated OP in the catalog, the query
    ["op"] returns the single hit of id 21, as an exact abbreviation match. *)
Example search_op : search_anime Catalog.tables "op" = Ok [Catalog.one_piece].
Proof. reflexivity. Qed.

(** With Jujutsu Kaisen (id 6594) in the catalog without abbreviation,
    the query ["jujutsu"] returns its single hit, as a partial title match. *)
Example search_jujutsu : search_anime Catalog.tables "jujutsu" = Ok [Catalog.jujutsu_kaisen].
Proof. reflexivity. Qed.

(** ["o"] has no exact match; the key ["op"] matches it in tier 3, and tier 4
    then appends a hit for each of the four title keys that contain it. *)
Example search_o :
  partial_abbreviations Catalog.tables "o" = Ok [Catalog.one_piece] /\
  search_anime Catalog.tables "o" =
    Ok [Catalog.one_piece; Catalog.one_piece; Catalog.one_piece; Catalog.one_piece;
        Catalog.monster].
Proof. split; reflexivity. Qed.

(** C2, as stated, fails: with no exact match and a non-empty tier 3, the
    result is not tier 3 alone. *)
Lemma tier3_does_not_short_circuit :
  ~ (forall (lk : lookup) (query : string) (results : list hit),
       dict_get String.eqb (abbreviations lk) (lower query) = None ->
       dict_get String.eqb (titles lk) (lower query) = None ->
       partial_abbreviations lk (lower query) = Ok results ->
       results <> [] ->
       search_anime lk query = Ok (firstn 10 results)).
Proof.
  intros H.
  specialize (H Catalog.tables "o" [Catalog.one_piece] eq_refl eq_refl eq_refl).
  assert (Hne : [Catalog.one_piece] <> []) by discriminate.
  specialize (H Hne). discriminate H.
Qed.

(** C2, amended: tiers 1 and 2 short-circuit, tier 3 does not.  On tables
    that keep their invariant, an exact abbreviation match, else an exact
    title match, returns that single hit; with neither, the result is the
    first 10 of the tier-3 hits followed by what tier 4 appends, each appended
    hit is the hit of a title key that contains the query, and every such key
    has a hit for its id among them. *)
Theorem tiers_of_search (lk : lookup) (query : string) :
  referential_integrity lk ->
  (forall aid, dict_get String.eqb (abbreviations lk) (lower query) = Some aid ->
     exists h, hit_for lk aid = Some h /\ search_anime lk query = Ok [h]) /\
  (forall aid, dict_get String.eqb (abbreviations lk) (lower query) = None ->
     dict_get String.eqb (titles lk) (lower query) = Some aid ->
     exists h, hit_for lk aid = Some h /\ search_anime lk query = Ok [h]) /\
  (dict_get String.eqb (abbreviations lk) (lower query) = None ->
   dict_get String.eqb (titles lk) (lower query) = None ->
   exists tier4,
     partial_abbreviations lk (lower query) = Ok (tier3 lk (lower query)) /\
     partial_titles lk (lower query) (tier3 lk (lower query)) =
       Ok (tier3 lk (lower query) ++ tier4)%list /\
     search_anime lk query = Ok (firstn 10 (tier3 lk (lower query) ++ tier4)) /\
     (forall h, In h tier4 ->
        exists title aid, In (title, aid) (titles lk) /\
                          contains (lower query) title = true /\ hit_for lk aid = Some h) /\
     (forall title aid, In (title, aid) (titles lk) -> contains (lower query) title = true ->
        exists h, In h (tier3 lk (lower query) ++ tier4)%list /\ hit_aid h = aid)).
Proof.
  intros Hri. split; [|split].
  - intros aid Habbr. apply search_exact_abbreviation; [exact Habbr|].
    destruct Hri as [Ha _]. eapply Ha. apply dict_get_str_In. exact Habbr.
  - intros aid Habbr Htitle. apply search_exact_title; [exact Habbr | exact Htitle |].
    destruct Hri as [_ Ht]. eapply Ht. apply dict_get_str_In. exact Htitle.
  - intros Habbr Htitle. now apply search_partial.
Qed.

Lemma tiers_of_search_witness :
  exists tier4,
    search_anime Catalog.tables "o" =
      Ok (firstn 10 (tier3 Catalog.tables (lower "o") ++ tier4)) /\
    In Catalog.monster tier4.
Proof.
  destruct (tiers_of_search Catalog.tables "o" catalog_integrity) as (_ & _ & H).
  destruct (H eq_refl eq_refl) as (tier4 & _ & Hrun & Hsearch & _).
  exists tier4. split; [exact Hsearch|].
  assert (Heq : (tier3 Catalog.tables (lower "o") ++ tier4)%list =
                ([Catalog.one_piece] ++ [Catalog.one_piece; Catalog.one_piece;
                   Catalog.one_piece; Catalog.monster])%list).
  { assert (Hrun' : partial_titles Catalog.tables (lower "o") (tier3 Catalog.tables (lower "o"))
                    = Ok ([Catalog.one_piece] ++ [Catalog.one_piece; Catalog.one_piece;
                          Catalog.one_piece; Catalog.monster])%list) by reflexivity.
    rewrite Hrun in Hrun'. now inversion Hrun'. }
  change (tier3 Catalog.tables (lower "o")) with [Catalog.one_piece] in Heq.
  apply app_inv_head in Heq. subst tier4. simpl. tauto.
Defined.

(** C3: the title loop tests [(aid, title, url)], with the matched key as
    [title], and appends [(aid, main_title, url)]: on ["one p"] the second
    matching key of One Piece appends a triple equal to the one the first
    key appended. *)
Example duplicate_triple_appended :
  parse_anime_titles Library.int_of_digits (Some Catalog.catalog) = Ok (Some Catalog.tables) /\
  title_match_step Catalog.tables "one p" [Catalog.one_piece] ("one piece tv", 21) =
    Ok [Catalog.one_piece; Catalog.one_piece] /\
  search_anime Catalog.tables "one p" = Ok [Catalog.one_piece; Catalog.one_piece].
Proof. repeat split. Qed.

(** C5: a list [search_anime] returns has at most 10 elements, and on
    tables that keep their invariant it returns one for every query. *)
Theorem search_at_most_10 (lk : lookup) (query : string) :
  (forall results, search_anime lk query = Ok results -> (length results <= 10)%nat) /\
  (referential_integrity lk -> exists results, search_anime lk query = Ok results).
Proof.
  split.
  - intros results. unfold search_anime.
    destruct (dict_get String.eqb (abbreviations lk) (lower query)) as [aid|].
    { destruct (getitem Z.eqb (anime_data lk) aid); cbn [bind]; [|discriminate].
      intros H. inversion H. simpl. lia. }
    destruct (dict_get String.eqb (titles lk) (lower query)) as [aid|].
    { destruct (getitem Z.eqb (anime_data lk) aid); cbn [bind]; [|discriminate].
      intros H. inversion H. simpl. lia. }
    destruct (partial_abbreviations lk (lower query)) as [r3|]; cbn [bind]; [|discriminate].
    destruct (partial_titles lk (lower query) r3) as [r4|]; cbn [bind]; [|discriminate].
    intros H. assert (Hr : results = firstn 10 r4) by congruence.
    rewrite Hr. apply firstn_le_length.
  - apply search_returns.
Qed.

Lemma search_at_most_10_witness :
  exists results,
    search_anime Catalog.tables "o" = Ok results /\ (length results <= 10)%nat.
Proof.
  destruct (search_at_most_10 Catalog.tables "o") as [Hbound Htotal].
  destruct (Htotal catalog_integrity) as [results Hrun].
  exists results. split; [exact Hrun | exact (Hbound results Hrun)].
Defined.

(** ** Main-title selection *)

Section MainTitle.

Variable aid : Z.

Lemma title_step_kept st t c s :
  elem_text t = Some (String c s) ->
  cur_main_title (title_step aid st t) =
  if (attr_default (attr_type t) "unknown" =? "main") || is_none (cur_main_title st)
  then Some (String c s) else cur_main_title st.
Proof. unfold title_step. now intros ->. Qed.

Lemma title_step_skipped st t :
  (forall c s, elem_text t <> Some (String c s)) -> title_step aid st t = st.
Proof.
  unfold title_step. intros H.
  destruct (elem_text t) as [[|c s]|]; [reflexivity | now destruct (H c s) | reflexivity].
Qed.

(** The title loop leaves the last kept title tagged ["main"]; without one,
    what it started from, or else the first kept title. *)
Lemma title_loop_main_title ts : forall st,
  cur_main_title (title_loop aid st ts) =
  match rev (filter tagged_main (kept_titles ts)) with
  | t :: _ => Some (fst t)
  | [] =>
      match cur_main_title st with
      | Some m => Some m
      | None => option_map fst (hd_error (kept_titles ts))
      end
  end.
Proof.
  unfold title_loop. induction ts as [|t ts IH]; intros st; simpl.
  - now destruct (cur_main_title st).
  - destruct (elem_text t) as [[|c s]|] eqn:Ht.
    + rewrite title_step_skipped by (intros; congruence). apply IH.
    + rewrite IH, (title_step_kept st t c s Ht). simpl. unfold tagged_main at 2. simpl.
      destruct (attr_default (attr_type t) "unknown" =? "main"); simpl.
      * destruct (rev (filter tagged_main (kept_titles ts))); reflexivity.
      * destruct (rev (filter tagged_main (kept_titles ts))); [|reflexivity].
        now destruct (cur_main_title st).
    + rewrite title_step_skipped by (intros; congruence). apply IH.
Qed.

End MainTitle.

(** C4, as stated, fails: of two titles tagged ["main"] the parser keeps
    the second, not the first. *)
Lemma first_main_does_not_win :
  exists lk a,
    anime_step Library.int_of_digits empty_lookup Catalog.two_mains = Ok lk /\
    dict_get Z.eqb (anime_data lk) 5 = Some a /\
    main_title a = Some "Traviata" /\
    first_main_else_first (title_elems Catalog.two_mains) = Some "La Traviata".
Proof. eexists. eexists. repeat split. Qed.

(** C4, amended: the record the parser stores for an entry has as main
    title the last title with a non-empty text tagged ["main"], if the entry
    has one; otherwise the first title with a non-empty text; and none when
    no title of the entry has a text. *)
Theorem main_title_selection (py_int : string -> option Z) (lk : lookup)
  (a : anime_elem) (aid_text : string) (aid : Z) :
  attr_aid a = Some aid_text ->
  is_empty aid_text = false ->
  py_int aid_text = Some aid ->
  exists lk' record,
    anime_step py_int lk a = Ok lk' /\
    dict_get Z.eqb (anime_data lk') aid = Some record /\
    main_title record = last_main_else_first (title_elems a).
Proof.
  intros Haid Hne Hint. unfold anime_step. rewrite Haid, Hne, Hint.
  eexists. eexists. split; [reflexivity|]. simpl. rewrite dict_get_Z_set, Z.eqb_refl.
  split; [reflexivity|]. simpl. rewrite title_loop_main_title. reflexivity.
Qed.

Lemma main_title_selection_witness :
  exists lk' record,
    anime_step Library.int_of_digits empty_lookup Catalog.two_mains = Ok lk' /\
    dict_get Z.eqb (anime_data lk') 5 = Some record /\
    main_title record = last_main_else_first (title_elems Catalog.two_mains).
Proof.
  apply (main_title_selection Library.int_of_digits empty_lookup Catalog.two_mains "5" 5);
    reflexivity.
Defined.

(** ** Domain exclusion *)

Section StrFacts.

Lemma endswith_iff s suffix : endswith s suffix = true <-> exists p, s = p ++ suffix.
Proof.
  induction s as [|c s IH]; cbn [endswith].
  - rewrite orb_false_r, String.eqb_eq. split.
    + intros <-. now exists "".
    + intros [[|c p] H]; simpl in H; [exact H | discriminate].
  - rewrite orb_true_iff, String.eqb_eq, IH. split.
    + intros [<- | [p ->]]; [now exists "" | now exists (String c p)].
    + intros [[|c' p] H]; simpl in H; [now left|].
      inversion H. right. now exists p.
Qed.



Lemma ascii_dec_lower (a c : ascii) (A : Type) (x y : A) :
  (lower_char c = a <-> c = a) ->
  (if ascii_dec a (lower_char c) then x else y) = (if ascii_dec a c then x else y).
Proof.
  intros H. destruct (ascii_dec a (lower_char c)) as [e|n], (ascii_dec a c) as [e'|n'];
    try reflexivity.
  - exfalso. apply n'. symmetry. apply H. now symmetry.
  - exfalso. apply n. symmetry. apply H. now symmetry.
Qed.





End StrFacts.

Lemma split_nonempty sep s : split sep s <> [].
Proof.
  destruct s as [|c s]; simpl; [discriminate|].
  destruct (Ascii.eqb c sep); [discriminate|]. destruct (split sep s); discriminate.
Qed.

Lemma split_length_cons sep c s : (length (split sep s) <= length (split sep (String c s)))%nat.
Proof.
  cbn [split]. destruct (Ascii.eqb c sep); [simpl; lia|].
  destruct (split sep s); simpl; lia.
Qed.

Lemma split_after_scheme u :
  startswith u "://" = true -> (3 <= length (split "/" u))%nat.
Proof.
  destruct u as [|c1 [|c2 [|c3 u]]]; cbn [startswith]; try discriminate;
    rewrite ?andb_false_r; try discriminate.
  rewrite !andb_true_iff. intros (H1 & H2 & H3 & _).
  apply Ascii.eqb_eq in H1, H2, H3. subst.
  pose proof (split_nonempty "/" u) as Hne.
  cbn. destruct (split "/" u); [contradiction | simpl; lia].
Qed.

Lemma split_with_scheme u :
  contains "://" u = true -> (3 <= length (split "/" u))%nat.
Proof.
  induction u as [|c u IH]; cbn [contains].
  - cbn. discriminate.
  - rewrite orb_true_iff. intros [H|H]; [now apply split_after_scheme|].
    specialize (IH H). pose proof (split_length_cons "/" c u). lia.
Qed.

(** The manual entry's extraction never raises: a URL with ["://"] has a
    third piece. *)
Lemma manual_domain_of_total url : exists domain, ManualFact.domain_of url = Ok domain.
Proof.
  unfold ManualFact.domain_of. destruct (contains "://" url) eqn:Hc; [|eauto].
  apply split_with_scheme in Hc.
  destruct (nth_error (split "/" url) 2) eqn:Hn; [eauto|].
  apply nth_error_None in Hn. lia.
Qed.

Lemma domain_excluded_iff excluded domain :
  domain_excluded excluded domain = true <->
  exists ex, In ex excluded /\ (domain = ex \/ exists sub, domain = sub ++ "." ++ ex).
Proof.
  unfold domain_excluded. rewrite existsb_exists. split.
  - intros (ex & Hin & H). exists ex. split; [exact Hin|].
    apply orb_true_iff in H as [H|H]; [left; now apply String.eqb_eq|].
    right. now apply endswith_iff.
  - intros (ex & Hin & H). exists ex. split; [exact Hin|].
    apply orb_true_iff. destruct H as [H|H]; [left; now apply String.eqb_eq|].
    right. now apply endswith_iff.
Qed.












(** The same verdicts on URLs, through each script's extraction. *)
Example exclusion_of_urls :
  ScrapeToN8n.domain_of Library.netloc_of "https://Sub.Example.com/page?x=1" =
    Ok "sub.example.com" /\
  ScrapeToN8n.domain_of Library.netloc_of "https://notexample.com" = Ok "notexample.com" /\
  ManualFact.domain_of "HTTPS://EXAMPLE.COM/About" = Ok "example.com" /\
  ManualFact.domain_of "Sub.Example.com" = Ok "sub.example.com".
Proof. repeat split. Qed.

(** ** Batch submission *)

Lemma posts_app t1 t2 : posts (t1 ++ t2) = (posts t1 ++ posts t2)%list.
Proof.
  induction t1 as [|[m|u|u b] t1 IH]; simpl; [reflexivity | exact IH | exact IH |].
  now rewrite IH.
Qed.



Section InjectFacts.

Variable uuid4 : Z -> string.
Variable utcnow_isoformat : Z -> string.
Variable post : Z -> Webhook.payload -> result Webhook.response.

(** One item: one request, and one of the two counters goes up by one,
    whatever the request does. *)
Lemma inject_item_outcome total s e item :
  exists t,
    inject_item uuid4 utcnow_isoformat post total (s, e) item =
      (t, Ok (if item_accepted uuid4 utcnow_isoformat post item
              then (s + 1, e) else (s, e + 1))) /\
    posts t = [item_payload uuid4 utcnow_isoformat item].
Proof.
  destruct item as [idx [aid a]].
  unfold inject_item, item_accepted, item_payload, accepted. cbn [fst snd].
  destruct (idx mod 500 =? 0)%Z;
    destruct (post idx (inject_payload uuid4 utcnow_isoformat idx a)) as [r|ex];
    cbn; try destruct ((Webhook.status_code r =? 200)%Z || (Webhook.status_code r =? 201)%Z);
    cbn; eexists; split; reflexivity.
Qed.

Lemma inject_loop_outcome total items : forall s e,
  exists t,
    io_for_each (inject_item uuid4 utcnow_isoformat post total) items (s, e) =
      (t, Ok (s + Z.of_nat (length (filter (item_accepted uuid4 utcnow_isoformat post) items)),
              e + Z.of_nat (length (filter
                     (fun i => negb (item_accepted uuid4 utcnow_isoformat post i)) items)))) /\
    posts t = map (item_payload uuid4 utcnow_isoformat) items.
Proof.
  induction items as [|item items IH]; intros s e.
  - exists []. cbn. rewrite !Z.add_0_r. now split.
  - destruct (inject_item_outcome total s e item) as (t1 & Hitem & Hposts).
    cbn [io_for_each]. unfold io_bind at 1. rewrite Hitem.
    cbn [filter map].
    destruct (item_accepted uuid4 utcnow_isoformat post item); cbn [negb].
    + destruct (IH (s + 1) e) as (t2 & Hrest & Hposts2). rewrite Hrest.
      exists (t1 ++ t2)%list. split.
      * f_equal. f_equal. f_equal. cbn [length]. lia.
      * rewrite posts_app, Hposts, Hposts2. reflexivity.
    + destruct (IH s (e + 1)) as (t2 & Hrest & Hposts2). rewrite Hrest.
      exists (t1 ++ t2)%list. split.
      * f_equal. f_equal. f_equal. cbn [length]. lia.
      * rewrite posts_app, Hposts, Hposts2. reflexivity.
Qed.

End InjectFacts.

(** ** The scraper never reaches the webhook *)

Section ScrapeFacts.

Variable urlparse_netloc : string -> result string.
Variable fetch : string -> result ScrapeToN8n.page.
Variable uuid4 : string -> string.
Variable post : Z -> Webhook.payload -> result Webhook.response.





End ScrapeFacts.


(** The URLs of the script's own [__main__] block end the run with the
    NameError, after both were fetched. *)
Example scrape_main_block :
  exists trace,
    ScrapeToN8n.scrape_and_send_to_n8n Library.netloc_of Scenario.fetch (fun u => u)
      Scenario.post_ok "anime, news" "" Scenario.urls Scenario.webhook_url
      (Some (Json [Some "example.org"])) =
      (trace, Raise (NameError "facts")) /\
    posts trace = [] /\ fetched trace = Scenario.urls.
Proof. eexists. repeat split. Qed.


Lemma send_loop_attempts post webhook_url total fs : forall i,
  exists t r,
    io_for_each (ScrapeToN8n.send_fact post webhook_url total) (enumerate i fs) tt = (t, r) /\
    posts t = attempted post i fs.
Proof.
  induction fs as [|f fs IH]; intros i.
  - exists [], (Ok tt). now split.
  - cbn [enumerate io_for_each attempted]. unfold ScrapeToN8n.send_fact at 1.
    destruct (post i f) as [resp|e]; cbn.
    + destruct (IH (i + 1)) as (t & r & Hrun & Hposts). rewrite Hrun.
      eexists. eexists. split; [reflexivity|]. cbn. now rewrite Hposts.
    + eexists. eexists. split; reflexivity.
Qed.



(** Three records, the second answered with HTTP 500, or failing in
    the network: the tally is 2 successes and 1 error, and the third record
    is posted. *)
Example inject_three_second_fails :
  (exists trace,
     inject_to_knowledge_base Scenario.uuid4 Scenario.utcnow_isoformat
       Scenario.post_second_500 Catalog.tables = (trace, Ok (2, 1)) /\
     length (posts trace) = 3%nat) /\
  (exists trace,
     inject_to_knowledge_base Scenario.uuid4 Scenario.utcnow_isoformat
       Scenario.post_second_raises Catalog.tables = (trace, Ok (2, 1)) /\
     length (posts trace) = 3%nat).
Proof. split; eexists; split; reflexivity. Qed.


(** ** Confidence *)

(** The anime injection always submits the confidence 0.95. *)
Lemma inject_confidence_in_range uuid4 utcnow_isoformat idx a :
  Webhook.in_unit_interval
    (Webhook.confidence (inject_payload uuid4 utcnow_isoformat idx a)) = true.
Proof. reflexivity. Qed.

(** The manual entry submits whatever number [float] reads. *)
Lemma parse_confidence_unchecked (py_float : string -> option float) s f :
  is_empty s = false -> py_float s = Some f ->
  ManualFact.parse_confidence py_float s = f.
Proof. unfold ManualFact.parse_confidence. now intros -> ->. Qed.

(** C9: typing [5] at the confidence prompt makes the manual entry post a
    payload whose confidence is 5.0, outside the interval from 0 to 1. *)
Example confidence_out_of_range :
  exists trace p,
    ManualFact.manual_fact_entry_and_send Library.float_of_digits Scenario.uuid4
      Scenario.utcnow_isoformat Scenario.post_ok Scenario.webhook_url None Scenario.typed =
      (trace, Ok tt) /\
    posts trace = [p] /\
    Webhook.text p = "Water is wet" /\
    Webhook.confidence p = 5%float /\
    Webhook.in_unit_interval (Webhook.confidence p) = false.
Proof. eexists. eexists. repeat split. Qed.

(** ** Further facts about the scripts *)

(** X1: were [facts] bound, the last loop of the scraper would send the
    facts up to and including the first whose request raises, and none after
    it: its [try] encloses the whole loop. *)
Theorem send_facts_attempts (post : Z -> Webhook.payload -> result Webhook.response)
  (webhook_url : string) (fs : list Webhook.payload) :
  posts (fst (ScrapeToN8n.send_facts post webhook_url fs)) = attempted post 1 fs.
Proof.
  unfold ScrapeToN8n.send_facts.
  destruct (send_loop_attempts post webhook_url (Z.of_nat (length fs)) fs 1)
    as (t & r & Hrun & Hposts).
  rewrite Hrun. destruct r as [[]|e]; cbn; [exact Hposts|].
  now rewrite posts_app, Hposts, app_nil_r.
Qed.

Section ParseTotal.

Variable py_int : string -> option Z.

Lemma anime_loop_total root : forall lk,
  (forall a s, In a root -> attr_aid a = Some s -> is_empty s = false -> py_int s <> None) ->
  exists lk', for_each (anime_step py_int) root lk = Ok lk'.
Proof.
  induction root as [|a root IH]; intros lk Hint; cbn [for_each]; [eauto|].
  assert (Hstep : exists lk1, anime_step py_int lk a = Ok lk1).
  { unfold anime_step. destruct (attr_aid a) as [s|] eqn:Ha; [|eauto].
    destruct (is_empty s) eqn:He; [eauto|].
    destruct (py_int s) eqn:Hs; [eauto|].
    exfalso. exact (Hint a s (or_introl eq_refl) Ha He Hs). }
  destruct Hstep as [lk1 ->]. cbn [bind]. apply IH.
  intros a' s Hin. apply Hint. now right.
Qed.

Lemma dict_set_keys {V : Type} (d : list (string * V)) k v k' v' :
  In (k', v') (dict_set String.eqb d k v) -> k' = k \/ exists v0, In (k', v0) d.
Proof.
  induction d as [|[k0 v0] d IH]; simpl.
  - intros [H|[]]. inversion H. now left.
  - destruct (String.eqb k k0); simpl.
    + intros [H|H]; [inversion H; subst; right; exists v0; now left | right; exists v'; now right].
    + intros [H|H]; [inversion H; subst; right; exists v'; now left|].
      destruct (IH H) as [->|[v1 H1]]; [now left | right; exists v1; now right].
Qed.

Lemma title_loop_keys_lower aid ts : forall st,
  keys_lower (cur_titles st) -> keys_lower (cur_abbreviations st) ->
  keys_lower (cur_titles (title_loop aid st ts)) /\
  keys_lower (cur_abbreviations (title_loop aid st ts)).
Proof.
  unfold title_loop. induction ts as [|t ts IH]; intros st Ht Ha; cbn [fold_left]; [now split|].
  apply IH; unfold title_step; destruct (elem_text t) as [txt|]; try assumption;
    destruct (is_empty txt); try assumption; cbn.
  - intros k v Hin. apply dict_set_keys in Hin as [->|[v0 H0]]; [apply lower_lower | eauto].
  - destruct (_ =? "short")%string; [|assumption].
    intros k v Hin. apply dict_set_keys in Hin as [->|[v0 H0]]; [apply lower_lower | eauto].
Qed.

Lemma anime_loop_keys_lower root : forall lk lk',
  keys_lower (titles lk) -> keys_lower (abbreviations lk) ->
  for_each (anime_step py_int) root lk = Ok lk' ->
  keys_lower (titles lk') /\ keys_lower (abbreviations lk').
Proof.
  induction root as [|a root IH]; intros lk lk' Ht Ha; cbn [for_each].
  - intros H. inversion H; subst. now split.
  - destruct (anime_step py_int lk a) as [lk1|e] eqn:Hstep; cbn [bind]; [|discriminate].
    apply IH; unfold anime_step in Hstep;
      destruct (attr_aid a) as [s|]; try (inversion Hstep; subst; assumption);
      destruct (is_empty s); try (inversion Hstep; subst; assumption);
      destruct (py_int s) as [aid|]; try discriminate;
      inversion Hstep; subst; cbn;
      match goal with |- context [title_loop aid ?st0 ?ts] =>
        destruct (title_loop_keys_lower aid ts st0 Ht Ha) as [Ht' Ha']
      end; assumption.
Qed.

End ParseTotal.

(** X2: the parser returns tables whenever [int] accepts every non-empty
    [aid] attribute of the catalog. *)
Theorem parse_total (py_int : string -> option Z) (root : list anime_elem) :
  (forall a s, In a root -> attr_aid a = Some s -> is_empty s = false -> py_int s <> None) ->
  exists lk, parse_anime_titles py_int (Some root) = Ok (Some lk).
Proof.
  intros Hint. unfold parse_anime_titles.
  destruct (anime_loop_total py_int root empty_lookup Hint) as [lk ->]. cbn [bind]. eauto.
Qed.

Lemma parse_total_witness :
  exists lk, parse_anime_titles Library.int_of_digits (Some Catalog.catalog) = Ok (Some lk).
Proof.
  apply (parse_total Library.int_of_digits Catalog.catalog).
  intros a s [<-|[<-|[<-|[]]]] H; inversion H; subst; discriminate.
Defined.

(** X3: the keys of the two string tables the parser returns are
    lower-case. *)
Theorem parsed_keys_lower (py_int : string -> option Z) (root : list anime_elem) (lk : lookup) :
  parse_anime_titles py_int (Some root) = Ok (Some lk) ->
  keys_lower (titles lk) /\ keys_lower (abbreviations lk).
Proof.
  unfold parse_anime_titles.
  destruct (for_each (anime_step py_int) root empty_lookup) as [lk1|e] eqn:Hloop;
    cbn [bind]; [|discriminate].
  intros H. inversion H; subst.
  eapply anime_loop_keys_lower; [| | exact Hloop]; intros k v [].
Qed.

Lemma parsed_keys_lower_witness :
  keys_lower (titles Catalog.tables) /\ keys_lower (abbreviations Catalog.tables).
Proof.
  apply (parsed_keys_lower Library.int_of_digits Catalog.catalog). reflexivity.
Defined.

(** A failed submission does not end the manual entry: after the first
    fact's request raises, the second fact is still read and posted. *)
Example manual_entry_continues_after_failure :
  exists trace p1 p2,
    ManualFact.manual_fact_entry_and_send Library.float_of_digits Scenario.uuid4
      Scenario.utcnow_isoformat
      (fun n _ => if (n =? 1)%Z then Raise RequestException else Ok Scenario.ok_response)
      Scenario.webhook_url None
      [""; ""; "first fact"; ""; ""; ""; "";
       ""; ""; "second fact"; ""; ""; "0"; "";
       ""; ""; "quit"] = (trace, Ok tt) /\
    posts trace = [p1; p2] /\
    Webhook.text p1 = "first fact" /\ Webhook.text p2 = "second fact".
Proof. eexists. eexists. eexists. repeat split. Qed.

(** ** The loop of the manual entry *)

Section ManualLoop.

Variable py_float : string -> option float.
Variable uuid4 : Z -> string.
Variable utcnow_isoformat : Z -> string.
Variable post : Z -> Webhook.payload -> result Webhook.response.
Variable webhook_url : string.
Variable excluded_domains : list string.






End ManualLoop.

(** ** More about dictionaries *)

Section DictMore.

Context {K V : Type}.
Variable eqb : K -> K -> bool.
Hypothesis eqb_eq : forall a b, eqb a b = true <-> a = b.

Lemma dict_get_set (d : list (K * V)) k v k' :
  dict_get eqb (dict_set eqb d k v) k' =
  if eqb k' k then Some v else dict_get eqb d k'.
Proof.
  induction d as [|[k0 v0] d IH]; simpl.
  - reflexivity.
  - destruct (eqb k k0) eqn:E; simpl.
    + apply eqb_eq in E. subst k0. destruct (eqb k' k); reflexivity.
    + rewrite IH. destruct (eqb k' k0) eqn:E0; [|reflexivity].
      apply eqb_eq in E0. subst k0.
      destruct (eqb k' k) eqn:E1; [|reflexivity].
      apply eqb_eq in E1. subst k'.
      assert (eqb k k = true) by now apply eqb_eq. congruence.
Qed.

Lemma dict_set_In_inv (d : list (K * V)) k v k' v' :
  In (k', v') (dict_set eqb d k v) -> In (k', v') d \/ (k' = k /\ v' = v).
Proof.
  induction d as [|[k0 v0] d IH]; simpl.
  - intros [H|[]]. inversion H. now right.
  - destruct (eqb k k0) eqn:E; simpl.
    + apply eqb_eq in E. subst k0.
      intros [H|H]; [inversion H; now right | left; now right].
    + intros [H|H]; [left; now left|].
      destruct (IH H) as [H'|H']; [left; now right | now right].
Qed.

Lemma dict_set_keys_In (d : list (K * V)) k v k' :
  In k' (map fst (dict_set eqb d k v)) <-> k' = k \/ In k' (map fst d).
Proof.
  induction d as [|[k0 v0] d IH]; simpl.
  - intuition.
  - destruct (eqb k k0) eqn:E; simpl.
    + apply eqb_eq in E. subst k0. intuition.
    + rewrite IH. intuition.
Qed.

(** Assigning to a key keeps the keys of a dictionary distinct. *)
Lemma dict_set_NoDup (d : list (K * V)) k v :
  NoDup (map fst d) -> NoDup (map fst (dict_set eqb d k v)).
Proof.
  induction d as [|[k0 v0] d IH]; simpl; intros Hnd.
  - constructor; [intros [] | constructor].
  - inversion Hnd as [|? ? Hnotin Hnd']; subst.
    destruct (eqb k k0) eqn:E; simpl.
    + constructor; assumption.
    + constructor; [|now apply IH].
      rewrite dict_set_keys_In. intros [->|Hin]; [|contradiction].
      assert (eqb k k = true) by now apply eqb_eq. congruence.
Qed.

Lemma dict_get_In (d : list (K * V)) k v :
  dict_get eqb d k = Some v -> In (k, v) d.
Proof.
  induction d as [|[k0 v0] d IH]; simpl; [discriminate|].
  destruct (eqb k k0) eqn:E.
  - apply eqb_eq in E. subst. intros H. inversion H. now left.
  - intros H. right. now apply IH.
Qed.

Lemma dict_get_None_keys (d : list (K * V)) k :
  dict_get eqb d k = None <-> ~ In k (map fst d).
Proof.
  induction d as [|[k0 v0] d IH]; simpl; [tauto|].
  destruct (eqb k k0) eqn:E.
  - apply eqb_eq in E. subst. split; [discriminate | intros H; exfalso; apply H; now left].
  - rewrite IH. split.
    + intros H [H0|H0]; [|contradiction]. subst.
      assert (eqb k k = true) by now apply eqb_eq. congruence.
    + intros H H0. apply H. now right.
Qed.

End DictMore.

(** ** More about the parser *)

Section ParserMore.

Variable py_int : string -> option Z.

Lemma for_each_app {A S : Type} (body : S -> A -> result S) xs ys acc :
  for_each body (xs ++ ys) acc = bind (for_each body xs acc) (for_each body ys).
Proof.
  revert acc. induction xs as [|x xs IH]; intros acc; simpl; [reflexivity|].
  destruct (body acc x); simpl; [apply IH | reflexivity].
Qed.

(** A property every step over an entry of the catalog keeps holds of the
    tables the loop ends with. *)
Lemma anime_loop_invariant (P : lookup -> Prop) (root : list anime_elem) :
  (forall lk a lk', In a root -> P lk -> anime_step py_int lk a = Ok lk' -> P lk') ->
  forall lk lk', P lk -> for_each (anime_step py_int) root lk = Ok lk' -> P lk'.
Proof.
  induction root as [|a root IH]; intros Hstep lk lk' HP; simpl.
  - intros H. inversion H. now subst.
  - destruct (anime_step py_int lk a) as [lk1|e] eqn:Ha; simpl; [|discriminate].
    apply IH.
    + intros lk0 a0 lk0' Hin. apply Hstep. now right.
    + eapply Hstep; [now left | exact HP | exact Ha].
Qed.

Lemma title_loop_invariant (P : title_state -> Prop) aid ts :
  (forall st t, In t ts -> P st -> P (title_step aid st t)) ->
  forall st, P st -> P (title_loop aid st ts).
Proof.
  unfold title_loop. induction ts as [|t ts IH]; intros Hstep st HP; simpl; [exact HP|].
  apply IH.
  - intros st0 t0 Hin. apply Hstep. now right.
  - apply Hstep; [now left | exact HP].
Qed.

(** What a step does for an entry that is read with an id. *)
Lemma anime_step_read lk a k :
  read_as py_int a k ->
  anime_step py_int lk a =
  Ok (let st := title_loop k
                  {| titles_list := []; cur_main_title := None;
                     cur_titles := titles lk; cur_abbreviations := abbreviations lk |}
                  (title_elems a) in
      {| abbreviations := cur_abbreviations st;
         titles := cur_titles st;
         anime_data :=
           dict_set Z.eqb (anime_data lk) k
             {| aid := k; main_title := cur_main_title st; title_list := titles_list st;
                anidb_url := "https://anidb.net/?aid=" ++ str_of_int k |} |}).
Proof. intros (s & Hs & He & Hk). unfold anime_step. now rewrite Hs, He, Hk. Qed.

(** A step either skips the entry, or reads it with an id. *)
Lemma anime_step_cases lk a lk' :
  anime_step py_int lk a = Ok lk' ->
  (has_aid a = false /\ lk' = lk) \/ (exists k, read_as py_int a k).
Proof.
  unfold anime_step, has_aid, read_as.
  destruct (attr_aid a) as [s|]; [|intros H; inversion H; now left].
  destruct (is_empty s) eqn:He; [intros H; inversion H; now left|].
  destruct (py_int s) as [k|] eqn:Hk; [|discriminate].
  intros _. right. exists k, s. now repeat split.
Qed.

Lemma title_loop_titles_list aid ts : forall st,
  titles_list (title_loop aid st ts) = (titles_list st ++ kept_infos ts)%list.
Proof.
  unfold title_loop. induction ts as [|t ts IH]; intros st; simpl.
  - now rewrite app_nil_r.
  - rewrite IH. unfold title_step.
    destruct (elem_text t) as [[|c s]|]; simpl; try reflexivity.
    now rewrite <- app_assoc.
Qed.

Lemma anime_step_record lk a k :
  read_as py_int a k ->
  exists lk', anime_step py_int lk a = Ok lk' /\
              dict_get Z.eqb (anime_data lk') k = Some (record_of k a) /\
              forall k' r, In (k', r) (anime_data lk') ->
                           In (k', r) (anime_data lk) \/ (k' = k /\ r = record_of k a).
Proof.
  intros Hread. rewrite (anime_step_read lk a k Hread). eexists. split; [reflexivity|].
  cbn [anime_data].
  assert (Hrec : forall st0, st0 = {| titles_list := []; cur_main_title := None;
                       cur_titles := titles lk; cur_abbreviations := abbreviations lk |} ->
            {| aid := k; main_title := cur_main_title (title_loop k st0 (title_elems a));
               title_list := titles_list (title_loop k st0 (title_elems a));
               anidb_url := "https://anidb.net/?aid=" ++ str_of_int k |} = record_of k a).
  { intros st0 ->. unfold record_of. rewrite title_loop_main_title, title_loop_titles_list.
    reflexivity. }
  rewrite (Hrec _ eq_refl). split.
  - rewrite (dict_get_set Z.eqb Z.eqb_eq), Z.eqb_refl. reflexivity.
  - intros k' r Hin. apply (dict_set_In_inv Z.eqb Z.eqb_eq) in Hin. exact Hin.
Qed.

End ParserMore.

(** X4: every record of the tables the parser returns is the record of an
    entry of the catalog read with that id: its [aid] is its key, its URL is
    the AniDB URL of that id, its titles are the entry's titles with a text,
    in order, and its main title is the one selected among them. *)
Theorem parsed_records_come_from_entries (py_int : string -> option Z)
  (root : list anime_elem) (lk : lookup) :
  parse_anime_titles py_int (Some root) = Ok (Some lk) ->
  forall k r, In (k, r) (anime_data lk) ->
    exists e, In e root /\ read_as py_int e k /\ r = record_of k e.
Proof.
  unfold parse_anime_titles.
  destruct (for_each (anime_step py_int) root empty_lookup) as [lk1|ex] eqn:Hloop;
    cbn [bind]; [|discriminate].
  intros H. inversion H; subst lk1. clear H.
  apply (anime_loop_invariant py_int
           (fun lk0 => forall k r, In (k, r) (anime_data lk0) ->
                         exists e, In e root /\ read_as py_int e k /\ r = record_of k e)
           root) with (lk := empty_lookup); [| intros k r [] | exact Hloop].
  intros lk0 a lk0' Hin HP Hstep k r Hr.
  destruct (anime_step_cases py_int lk0 a lk0' Hstep) as [[_ ->]|[k0 Hread]]; [now apply HP|].
  destruct (anime_step_record py_int lk0 a k0 Hread) as (lk2 & Hstep2 & _ & Hfrom).
  assert (lk2 = lk0') by congruence. subst lk2.
  destruct (Hfrom k r Hr) as [Hold|[-> ->]]; [now apply HP|].
  exists a. now repeat split.
Qed.

Lemma parsed_records_come_from_entries_witness :
  exists e, In e Catalog.catalog /\ read_as Library.int_of_digits e 1453 /\
            {| aid := 1453; main_title := Some "Monster";
               title_list := [{| text := "Monster"; type := "main"; lang := "en" |}];
               anidb_url := "https://anidb.net/?aid=1453" |} = record_of 1453 e.
Proof.
  apply (parsed_records_come_from_entries Library.int_of_digits Catalog.catalog
           Catalog.tables eq_refl).
  simpl. right. right. left. reflexivity.
Defined.

Section ParserKeys.

Variable py_int : string -> option Z.

Lemma title_step_NoDup aid st t :
  NoDup (map fst (cur_titles st)) /\ NoDup (map fst (cur_abbreviations st)) ->
  NoDup (map fst (cur_titles (title_step aid st t))) /\
  NoDup (map fst (cur_abbreviations (title_step aid st t))).
Proof.
  intros [Ht Ha]. unfold title_step.
  destruct (elem_text t) as [txt|]; [|now split].
  destruct (is_empty txt); [now split|]. cbn. split.
  - now apply (dict_set_NoDup String.eqb String.eqb_eq).
  - destruct (_ =? "short")%string; [|exact Ha].
    now apply (dict_set_NoDup String.eqb String.eqb_eq).
Qed.

Lemma anime_step_NoDup lk a lk' :
  NoDup (map fst (abbreviations lk)) /\ NoDup (map fst (titles lk)) /\
  NoDup (map fst (anime_data lk)) ->
  anime_step py_int lk a = Ok lk' ->
  NoDup (map fst (abbreviations lk')) /\ NoDup (map fst (titles lk')) /\
  NoDup (map fst (anime_data lk')).
Proof.
  intros (Ha & Ht & Hd) Hstep.
  destruct (anime_step_cases py_int lk a lk' Hstep) as [[_ ->]|[k Hread]]; [now repeat split|].
  rewrite (anime_step_read py_int lk a k Hread) in Hstep. inversion Hstep; subst lk'. clear Hstep.
  cbn [abbreviations titles anime_data].
  match goal with |- context [title_loop k ?st0 ?ts] =>
    pose proof (title_loop_invariant
      (fun st => NoDup (map fst (cur_titles st)) /\ NoDup (map fst (cur_abbreviations st)))
      k ts (fun st t _ => title_step_NoDup k st t) st0 (conj Ht Ha)) as [Ht' Ha']
  end.
  repeat split; try assumption.
  now apply (dict_set_NoDup Z.eqb Z.eqb_eq).
Qed.

(** A title with a text is registered under its lower-cased text by the
    step that reads it, and stays registered with the id being read. *)
Lemma title_step_registers aid st t txt :
  has_text t txt ->
  dict_get String.eqb (cur_titles (title_step aid st t)) (lower txt) = Some aid /\
  (attr_type t = Some "short" ->
   dict_get String.eqb (cur_abbreviations (title_step aid st t)) (lower txt) = Some aid).
Proof.
  intros [Ht He]. unfold title_step. rewrite Ht, He. cbn. split.
  - now rewrite (dict_get_set String.eqb String.eqb_eq), String.eqb_refl.
  - intros Hs. rewrite Hs. cbn.
    now rewrite (dict_get_set String.eqb String.eqb_eq), String.eqb_refl.
Qed.

Lemma title_step_keeps aid st t key :
  (dict_get String.eqb (cur_titles st) key = Some aid ->
   dict_get String.eqb (cur_titles (title_step aid st t)) key = Some aid) /\
  (dict_get String.eqb (cur_abbreviations st) key = Some aid ->
   dict_get String.eqb (cur_abbreviations (title_step aid st t)) key = Some aid) /\
  (dict_get String.eqb (cur_titles st) key <> None ->
   dict_get String.eqb (cur_titles (title_step aid st t)) key <> None) /\
  (dict_get String.eqb (cur_abbreviations st) key <> None ->
   dict_get String.eqb (cur_abbreviations (title_step aid st t)) key <> None).
Proof.
  unfold title_step. destruct (elem_text t) as [txt|]; [|tauto].
  destruct (is_empty txt); [tauto|]. cbn.
  rewrite (dict_get_set String.eqb String.eqb_eq).
  destruct (_ =? "short")%string; rewrite ?(dict_get_set String.eqb String.eqb_eq);
    destruct (key =? lower txt)%string; repeat split; intros; congruence.
Qed.

Lemma title_loop_keeps aid ts key : forall st,
  (dict_get String.eqb (cur_titles st) key = Some aid ->
   dict_get String.eqb (cur_titles (title_loop aid st ts)) key = Some aid) /\
  (dict_get String.eqb (cur_abbreviations st) key = Some aid ->
   dict_get String.eqb (cur_abbreviations (title_loop aid st ts)) key = Some aid) /\
  (dict_get String.eqb (cur_titles st) key <> None ->
   dict_get String.eqb (cur_titles (title_loop aid st ts)) key <> None) /\
  (dict_get String.eqb (cur_abbreviations st) key <> None ->
   dict_get String.eqb (cur_abbreviations (title_loop aid st ts)) key <> None).
Proof.
  unfold title_loop. induction ts as [|t ts IH]; intros st; simpl; [tauto|].
  destruct (title_step_keeps aid st t key) as (H1 & H2 & H3 & H4).
  destruct (IH (title_step aid st t)) as (I1 & I2 & I3 & I4).
  repeat split; auto.
Qed.

Lemma title_loop_registers aid ts t txt : forall st,
  In t ts -> has_text t txt ->
  dict_get String.eqb (cur_titles (title_loop aid st ts)) (lower txt) = Some aid /\
  (attr_type t = Some "short" ->
   dict_get String.eqb (cur_abbreviations (title_loop aid st ts)) (lower txt) = Some aid).
Proof.
  induction ts as [|t0 ts IH]; intros st Hin Htxt; [contradiction|].
  change (title_loop aid st (t0 :: ts)) with (title_loop aid (title_step aid st t0) ts).
  destruct Hin as [->|Hin]; [|now apply IH].
  destruct (title_step_registers aid st t txt Htxt) as [H1 H2].
  destruct (title_loop_keeps aid ts (lower txt) (title_step aid st t)) as (K1 & K2 & _).
  split; [now apply K1 | intros Hs; apply K2; now apply H2].
Qed.


Lemma anime_step_registers lk a k t txt :
  read_as py_int a k -> In t (title_elems a) -> has_text t txt ->
  exists lk', anime_step py_int lk a = Ok lk' /\
    dict_get String.eqb (titles lk') (lower txt) = Some k /\
    (attr_type t = Some "short" ->
     dict_get String.eqb (abbreviations lk') (lower txt) = Some k).
Proof.
  intros Hread Hin Htxt. rewrite (anime_step_read py_int lk a k Hread).
  eexists. split; [reflexivity|]. cbn [abbreviations titles].
  now apply title_loop_registers.
Qed.



End ParserKeys.

(** X5: the keys of each of the three tables the parser returns are
    distinct, so the length of a table counts its keys. *)
Theorem parsed_keys_unique (py_int : string -> option Z)
  (root : list anime_elem) (lk : lookup) :
  parse_anime_titles py_int (Some root) = Ok (Some lk) ->
  NoDup (map fst (abbreviations lk)) /\ NoDup (map fst (titles lk)) /\
  NoDup (map fst (anime_data lk)).
Proof.
  unfold parse_anime_titles.
  destruct (for_each (anime_step py_int) root empty_lookup) as [lk1|ex] eqn:Hloop;
    cbn [bind]; [|discriminate].
  intros H. inversion H; subst lk1. clear H.
  apply (anime_loop_invariant py_int
           (fun lk0 => NoDup (map fst (abbreviations lk0)) /\ NoDup (map fst (titles lk0)) /\
                       NoDup (map fst (anime_data lk0)))
           root) with (lk := empty_lookup); [| | exact Hloop].
  - intros lk0 a lk0' _. apply anime_step_NoDup.
  - cbn. repeat split; constructor.
Qed.

Lemma parsed_keys_unique_witness :
  NoDup (map fst (abbreviations Catalog.tables)) /\ NoDup (map fst (titles Catalog.tables)) /\
  NoDup (map fst (anime_data Catalog.tables)).
Proof.
  apply (parsed_keys_unique Library.int_of_digits Catalog.catalog). reflexivity.
Defined.



(** X7: on a collision the last writer wins.  The titles of the last entry
    of the catalog all map to its id, its short titles do so in the
    abbreviations too, and its record is the one stored under that id,
    whatever earlier entries registered. *)
Theorem last_entry_wins (py_int : string -> option Z)
  (root : list anime_elem) (e : anime_elem) (k : Z) (lk : lookup) :
  parse_anime_titles py_int (Some (root ++ [e])%list) = Ok (Some lk) ->
  read_as py_int e k ->
  dict_get Z.eqb (anime_data lk) k = Some (record_of k e) /\
  forall t txt, In t (title_elems e) -> has_text t txt ->
    dict_get String.eqb (titles lk) (lower txt) = Some k /\
    (attr_type t = Some "short" ->
     dict_get String.eqb (abbreviations lk) (lower txt) = Some k).
Proof.
  unfold parse_anime_titles. rewrite for_each_app.
  destruct (for_each (anime_step py_int) root empty_lookup) as [lk0|ex]; cbn [bind for_each];
    [|discriminate].
  intros H Hread.
  destruct (anime_step_record py_int lk0 e k Hread) as (lk1 & Hstep & Hrec & _).
  rewrite Hstep in H. cbn [bind] in H. inversion H; subst lk1. clear H.
  split; [exact Hrec|]. intros t txt Hin Htxt.
  destruct (anime_step_registers py_int lk0 e k t txt Hread Hin Htxt) as (lk2 & Hstep2 & Hreg).
  assert (lk2 = lk) by congruence. subst lk2. exact Hreg.
Qed.

Lemma last_entry_wins_witness :
  exists lk,
    parse_anime_titles Library.int_of_digits
      (Some (Catalog.catalog ++ [Catalog.two_mains])%list) = Ok (Some lk) /\
    dict_get Z.eqb (anime_data lk) 5 = Some (record_of 5 Catalog.two_mains) /\
    dict_get String.eqb (titles lk) (lower "Traviata") = Some 5.
Proof.
  eexists. split; [reflexivity|].
  match goal with |- dict_get _ (anime_data ?lk) _ = _ /\ _ =>
    pose proof (last_entry_wins Library.int_of_digits Catalog.catalog Catalog.two_mains 5 lk
                  eq_refl (ex_intro _ "5" (conj eq_refl (conj eq_refl eq_refl)))) as [Hrec Hall]
  end.
  split; [exact Hrec|].
  apply (Hall (Catalog.title "Traviata" "main") "Traviata").
  - right. right. left. reflexivity.
  - split; reflexivity.
Defined.

Section SkipAndFail.

Variable py_int : string -> option Z.

Lemma anime_step_no_aid lk a : has_aid a = false -> anime_step py_int lk a = Ok lk.
Proof.
  unfold has_aid, anime_step. destruct (attr_aid a) as [s|]; [|reflexivity].
  destruct (is_empty s); [reflexivity | discriminate].
Qed.

Lemma anime_loop_filter root : forall lk,
  for_each (anime_step py_int) (filter has_aid root) lk =
  for_each (anime_step py_int) root lk.
Proof.
  induction root as [|a root IH]; intros lk; [reflexivity|]. cbn [filter].
  destruct (has_aid a) eqn:Ha.
  - cbn [for_each]. destruct (anime_step py_int lk a); cbn [bind]; [apply IH | reflexivity].
  - cbn [for_each]. rewrite (anime_step_no_aid lk a Ha). cbn [bind]. apply IH.
Qed.

Lemma anime_step_raises lk a ex :
  anime_step py_int lk a = Raise ex ->
  ex = ValueError /\
  exists s, attr_aid a = Some s /\ is_empty s = false /\ py_int s = None.
Proof.
  unfold anime_step. destruct (attr_aid a) as [s|]; [|discriminate].
  destruct (is_empty s) eqn:He; [discriminate|].
  destruct (py_int s) eqn:Hs; [discriminate|].
  intros H. inversion H. split; [reflexivity|]. now exists s.
Qed.

Lemma anime_loop_raises root ex : forall lk,
  for_each (anime_step py_int) root lk = Raise ex ->
  ex = ValueError /\
  exists a s, In a root /\ attr_aid a = Some s /\ is_empty s = false /\ py_int s = None.
Proof.
  induction root as [|a root IH]; intros lk; cbn [for_each]; [discriminate|].
  destruct (anime_step py_int lk a) as [lk1|e1] eqn:Ha; cbn [bind].
  - intros H. destruct (IH lk1 H) as (-> & a0 & s & Hin & Hrest).
    split; [reflexivity|]. exists a0, s. split; [now right | exact Hrest].
  - intros H. inversion H; subst e1.
    destruct (anime_step_raises lk a ex Ha) as (-> & s & Hrest).
    split; [reflexivity|]. exists a, s. split; [now left | exact Hrest].
Qed.

End SkipAndFail.

(** X8: entries without an [aid] attribute, or with an empty one, are
    skipped without a trace: the parser returns the same result without
    them. *)
Theorem entries_without_aid_are_skipped (py_int : string -> option Z)
  (root : list anime_elem) :
  parse_anime_titles py_int (Some (filter has_aid root)) =
  parse_anime_titles py_int (Some root).
Proof. unfold parse_anime_titles. now rewrite anime_loop_filter. Qed.

(** X9: the only exception the parsing loop raises is the ValueError of
    [int], and it raises it only for a catalog with an entry whose non-empty
    [aid] attribute [int] rejects. *)
Theorem parse_fails_on_bad_aid_only (py_int : string -> option Z)
  (root : list anime_elem) (ex : exn) :
  parse_anime_titles py_int (Some root) = Raise ex ->
  ex = ValueError /\
  exists a s, In a root /\ attr_aid a = Some s /\ is_empty s = false /\ py_int s = None.
Proof.
  unfold parse_anime_titles.
  destruct (for_each (anime_step py_int) root empty_lookup) as [lk|e1] eqn:Hloop;
    cbn [bind]; [discriminate|].
  intros H. inversion H; subst e1. exact (anime_loop_raises py_int root ex empty_lookup Hloop).
Qed.

Lemma parse_fails_on_bad_aid_only_witness :
  ValueError = ValueError /\
  exists a s, In a [ {| attr_aid := Some "x21"; title_elems := [] |} ] /\
              attr_aid a = Some s /\ is_empty s = false /\ Library.int_of_digits s = None.
Proof.
  apply (parse_fails_on_bad_aid_only Library.int_of_digits
           [ {| attr_aid := Some "x21"; title_elems := [] |} ] ValueError).
  reflexivity.
Defined.

(** ** More about the search *)

Lemma for_each_invariant {A S : Type} (body : S -> A -> result S) (P : S -> Prop) xs :
  (forall acc x acc', In x xs -> P acc -> body acc x = Ok acc' -> P acc') ->
  forall acc acc', P acc -> for_each body xs acc = Ok acc' -> P acc'.
Proof.
  induction xs as [|x xs IH]; intros Hstep acc acc' HP; simpl.
  - intros H. inversion H. now subst.
  - destruct (body acc x) as [acc1|e] eqn:Hb; simpl; [|discriminate].
    apply IH; [intros a0 x0 a0' Hin; apply Hstep; now right|].
    eapply Hstep; [now left | exact HP | exact Hb].
Qed.

Lemma for_each_raises {A S : Type} (body : S -> A -> result S) xs e : forall acc,
  for_each body xs acc = Raise e -> exists acc0 x, In x xs /\ body acc0 x = Raise e.
Proof.
  induction xs as [|x xs IH]; intros acc; simpl; [discriminate|].
  destruct (body acc x) as [acc1|e1] eqn:Hb; simpl.
  - intros H. destruct (IH acc1 H) as (acc0 & x0 & Hin & Hr). exists acc0, x0. split; [now right | exact Hr].
  - intros H. inversion H; subst. exists acc, x. split; [now left | exact Hb].
Qed.

Lemma getitem_Ok {V : Type} (d : list (Z * V)) k v :
  getitem Z.eqb d k = Ok v -> dict_get Z.eqb d k = Some v.
Proof. unfold getitem. destruct (dict_get Z.eqb d k); intros H; inversion H; reflexivity. Qed.

Lemma getitem_Raise {V : Type} (d : list (Z * V)) k e :
  getitem Z.eqb d k = Raise e -> e = KeyError /\ dict_get Z.eqb d k = None.
Proof. unfold getitem. destruct (dict_get Z.eqb d k); intros H; inversion H; now split. Qed.

Section SearchMore.

Variable lk : lookup.
Variable query_lower : string.

Lemma abbreviation_step_from_tables results item results' :
  In item (abbreviations lk) ->
  Forall (from_tables lk) results ->
  abbreviation_step lk query_lower results item = Ok results' ->
  Forall (from_tables lk) results'.
Proof.
  destruct item as [abbr aid]. intros Hin Hall. unfold abbreviation_step.
  destruct (contains query_lower abbr || contains abbr query_lower);
    [|intros H; inversion H; now subst].
  destruct (getitem Z.eqb (anime_data lk) aid) as [a|e] eqn:Hget; cbn [bind]; [|discriminate].
  intros H. inversion H; subst. apply Forall_app. split; [exact Hall|].
  constructor; [|constructor]. exists abbr, aid, a. split; [now left|].
  split; [now apply getitem_Ok | reflexivity].
Qed.

Lemma title_match_step_from_tables results item results' :
  In item (titles lk) ->
  Forall (from_tables lk) results ->
  title_match_step lk query_lower results item = Ok results' ->
  Forall (from_tables lk) results'.
Proof.
  destruct item as [title aid]. intros Hin Hall. unfold title_match_step.
  destruct (contains query_lower title); [|intros H; inversion H; now subst].
  destruct (getitem Z.eqb (anime_data lk) aid) as [a|e] eqn:Hget; cbn [bind]; [|discriminate].
  destruct (negb (hit_in (aid, Some title, anidb_url a) results));
    [|intros H; inversion H; now subst].
  intros H. inversion H; subst. apply Forall_app. split; [exact Hall|].
  constructor; [|constructor]. exists title, aid, a. split; [now right|].
  split; [now apply getitem_Ok | reflexivity].
Qed.

Lemma abbreviation_step_raises results item e :
  abbreviation_step lk query_lower results item = Raise e -> e = KeyError.
Proof.
  destruct item as [abbr aid]. unfold abbreviation_step.
  destruct (contains query_lower abbr || contains abbr query_lower); [|discriminate].
  destruct (getitem Z.eqb (anime_data lk) aid) as [a|e1] eqn:Hget; cbn [bind]; [discriminate|].
  intros H. inversion H; subst. now apply getitem_Raise in Hget.
Qed.

Lemma title_match_step_raises results item e :
  title_match_step lk query_lower results item = Raise e -> e = KeyError.
Proof.
  destruct item as [title aid]. unfold title_match_step.
  destruct (contains query_lower title); [|discriminate].
  destruct (getitem Z.eqb (anime_data lk) aid) as [a|e1] eqn:Hget; cbn [bind].
  - destruct (negb (hit_in (aid, Some title, anidb_url a) results)); discriminate.
  - intros H. inversion H; subst. now apply getitem_Raise in Hget.
Qed.

End SearchMore.

Lemma Forall_firstn {A : Type} (P : A -> Prop) n (l : list A) :
  Forall P l -> Forall P (firstn n l).
Proof.
  intros H. apply Forall_forall. intros x Hx. apply (proj1 (Forall_forall P l) H).
  rewrite <- (firstn_skipn n l). apply in_or_app. now left.
Qed.

(** X10: [search_anime] invents nothing: every hit of a list it returns, on
    any tables, is the triple of a record stored in [anime_data], for an id
    that one of the two string tables maps a key to. *)
Theorem search_hits_come_from_tables (lk : lookup) (query : string) (results : list hit) :
  search_anime lk query = Ok results -> Forall (from_tables lk) results.
Proof.
  unfold search_anime.
  destruct (dict_get String.eqb (abbreviations lk) (lower query)) as [aid|] eqn:Habbr.
  { destruct (getitem Z.eqb (anime_data lk) aid) as [a|e] eqn:Hget; cbn [bind]; [|discriminate].
    intros H. inversion H; subst. constructor; [|constructor].
    exists (lower query), aid, a. split; [left; now apply dict_get_str_In|].
    split; [now apply getitem_Ok | reflexivity]. }
  destruct (dict_get String.eqb (titles lk) (lower query)) as [aid|] eqn:Htitle.
  { destruct (getitem Z.eqb (anime_data lk) aid) as [a|e] eqn:Hget; cbn [bind]; [|discriminate].
    intros H. inversion H; subst. constructor; [|constructor].
    exists (lower query), aid, a. split; [right; now apply dict_get_str_In|].
    split; [now apply getitem_Ok | reflexivity]. }
  destruct (partial_abbreviations lk (lower query)) as [r3|e] eqn:H3; cbn [bind]; [|discriminate].
  destruct (partial_titles lk (lower query) r3) as [r4|e] eqn:H4; cbn [bind]; [|discriminate].
  intros H. assert (Hr : results = firstn 10 r4) by congruence. subst results.
  apply Forall_firstn.
  apply (for_each_invariant (title_match_step lk (lower query)) (Forall (from_tables lk))
           (titles lk)) with (acc := r3); [| | exact H4].
  - intros acc x acc' Hin. now apply title_match_step_from_tables.
  - apply (for_each_invariant (abbreviation_step lk (lower query)) (Forall (from_tables lk))
             (abbreviations lk)) with (acc := []); [| constructor | exact H3].
    intros acc x acc' Hin. now apply abbreviation_step_from_tables.
Qed.

Lemma search_hits_come_from_tables_witness :
  Forall (from_tables Catalog.tables)
    [Catalog.one_piece; Catalog.one_piece; Catalog.one_piece; Catalog.one_piece;
     Catalog.monster].
Proof.
  apply (search_hits_come_from_tables Catalog.tables "o"). reflexivity.
Defined.

(** X11: the only exception [search_anime] raises is KeyError, and it raises
    it only on tables that break the invariant (an id of a string table
    without a record). *)
Theorem search_raises_only_KeyError (lk : lookup) (query : string) (e : exn) :
  search_anime lk query = Raise e -> e = KeyError /\ ~ referential_integrity lk.
Proof.
  intros Hraise. split.
  - revert Hraise. unfold search_anime.
    destruct (dict_get String.eqb (abbreviations lk) (lower query)) as [aid|].
    { destruct (getitem Z.eqb (anime_data lk) aid) as [a|e1] eqn:Hget; cbn [bind]; [discriminate|].
      intros H. inversion H; subst. now apply getitem_Raise in Hget. }
    destruct (dict_get String.eqb (titles lk) (lower query)) as [aid|].
    { destruct (getitem Z.eqb (anime_data lk) aid) as [a|e1] eqn:Hget; cbn [bind]; [discriminate|].
      intros H. inversion H; subst. now apply getitem_Raise in Hget. }
    destruct (partial_abbreviations lk (lower query)) as [r3|e1] eqn:H3; cbn [bind].
    + destruct (partial_titles lk (lower query) r3) as [r4|e2] eqn:H4; cbn [bind]; [discriminate|].
      intros H. inversion H; subst.
      apply for_each_raises in H4 as (acc & x & _ & Hx).
      now apply title_match_step_raises in Hx.
    + intros H. inversion H; subst.
      apply for_each_raises in H3 as (acc & x & _ & Hx).
      now apply abbreviation_step_raises in Hx.
  - intros Hri. destruct (search_returns lk query Hri) as [results Hok]. congruence.
Qed.

Lemma search_raises_only_KeyError_witness :
  KeyError = KeyError /\
  ~ referential_integrity {| abbreviations := [("op", 21)]; titles := []; anime_data := [] |}.
Proof.
  apply (search_raises_only_KeyError
           {| abbreviations := [("op", 21)]; titles := []; anime_data := [] |} "OP" KeyError).
  reflexivity.
Defined.

Lemma startswith_refl s : startswith s s = true.
Proof. induction s as [|c s IH]; simpl; [reflexivity|]. now rewrite Ascii.eqb_refl, IH. Qed.

Lemma contains_refl s : contains s s = true.
Proof. destruct s as [|c s]; [reflexivity|]. cbn [contains]. now rewrite startswith_refl. Qed.

Lemma contains_empty s : contains "" s = true.
Proof. destruct s; reflexivity. Qed.

Lemma firstn_10_nil {A : Type} (l : list A) : firstn 10 l = [] -> l = [].
Proof. destruct l; [reflexivity | discriminate]. Qed.

Lemma hits_of_nil lk items :
  (forall key k, In (key, k) items -> dict_get Z.eqb (anime_data lk) k <> None) ->
  hits_of lk items = [] -> items = [].
Proof.
  destruct items as [|[key k] items]; [reflexivity|]. intros Hknown. simpl.
  destruct (getitem_known lk k (Hknown key k (or_introl eq_refl))) as (a & _ & Hhit).
  rewrite Hhit. discriminate.
Qed.

Lemma filter_nil_iff {A : Type} (f : A -> bool) (l : list A) :
  filter f l = [] <-> forall x, In x l -> f x = false.
Proof.
  induction l as [|x l IH]; simpl; [tauto|].
  destruct (f x) eqn:Hx.
  - split; [discriminate|]. intros H. specialize (H x (or_introl eq_refl)). congruence.
  - rewrite IH. split.
    + intros H y [<-|Hy]; auto.
    + intros H y Hy. apply H. now right.
Qed.

(** X12: on tables that keep their invariant, [search_anime] returns the
    empty list exactly when nothing matches: no abbreviation key contains
    the lower-cased query or is contained in it, and no title key contains
    it. *)
Theorem search_finds_nothing_iff (lk : lookup) (query : string) :
  referential_integrity lk ->
  (search_anime lk query = Ok [] <-> nothing_matches lk (lower query)).
Proof.
  intros Hri. pose proof Hri as [Hia Hit]. split.
  - intros Hnil.
    destruct (dict_get String.eqb (abbreviations lk) (lower query)) as [aid|] eqn:Habbr.
    { destruct (search_exact_abbreviation lk query aid Habbr) as (h & _ & Hrun);
        [eapply Hia; apply dict_get_str_In; exact Habbr | congruence]. }
    destruct (dict_get String.eqb (titles lk) (lower query)) as [aid|] eqn:Htitle.
    { destruct (search_exact_title lk query aid Habbr Htitle) as (h & _ & Hrun);
        [eapply Hit; apply dict_get_str_In; exact Htitle | congruence]. }
    destruct (search_partial lk query Hri Habbr Htitle) as (tier4 & _ & _ & Hrun & _ & Hall).
    rewrite Hrun in Hnil. inversion Hnil as [Hfirst]. apply firstn_10_nil in Hfirst.
    apply app_eq_nil in Hfirst as [H3 H4]. split.
    + apply filter_nil_iff. apply (hits_of_nil lk); [|exact H3].
      intros key k Hin. apply filter_In in Hin as [Hin _]. eapply Hia. exact Hin.
    + intros title k Hin. destruct (contains (lower query) title) eqn:Hc; [|reflexivity].
      destruct (Hall title k Hin Hc) as (h & Hh & _). rewrite H3, H4 in Hh. contradiction.
  - intros [Habbrs Htitles].
    assert (Habbr : dict_get String.eqb (abbreviations lk) (lower query) = None).
    { destruct (dict_get String.eqb (abbreviations lk) (lower query)) as [aid|] eqn:E;
        [|reflexivity].
      apply dict_get_str_In in E. specialize (Habbrs _ E).
      unfold abbreviation_matches in Habbrs. cbn [fst] in Habbrs.
      rewrite contains_refl in Habbrs. discriminate. }
    assert (Htitle : dict_get String.eqb (titles lk) (lower query) = None).
    { destruct (dict_get String.eqb (titles lk) (lower query)) as [aid|] eqn:E;
        [|reflexivity].
      apply dict_get_str_In in E. specialize (Htitles _ _ E).
      rewrite contains_refl in Htitles. discriminate. }
    destruct (search_partial lk query Hri Habbr Htitle) as (tier4 & _ & _ & Hrun & Hfrom & _).
    rewrite Hrun. unfold tier3. rewrite (proj2 (filter_nil_iff _ _) Habbrs). cbn [hits_of app].
    destruct tier4 as [|h tier4]; [reflexivity|].
    destruct (Hfrom h (or_introl eq_refl)) as (title & k & Hin & Hc & _).
    rewrite (Htitles title k Hin) in Hc. discriminate.
Qed.

Lemma search_finds_nothing_iff_witness :
  search_anime Catalog.tables "xyz" = Ok [] <-> nothing_matches Catalog.tables (lower "xyz").
Proof. apply (search_finds_nothing_iff Catalog.tables "xyz"). apply catalog_integrity. Defined.

(** X13: the empty query matches every key.  On tables that keep their
    invariant and have a title, [search_anime] returns a non-empty list for
    it, not the empty list a query without match gets. *)
Theorem empty_query_lists_entries (lk : lookup) :
  referential_integrity lk -> titles lk <> [] ->
  exists h rest, search_anime lk "" = Ok (h :: rest).
Proof.
  intros Hri Hne. pose proof Hri as [Hia Hit].
  destruct (dict_get String.eqb (abbreviations lk) (lower "")) as [aid|] eqn:Habbr.
  { destruct (search_exact_abbreviation lk "" aid Habbr) as (h & _ & Hrun);
      [eapply Hia; apply dict_get_str_In; exact Habbr | eauto]. }
  destruct (dict_get String.eqb (titles lk) (lower "")) as [aid|] eqn:Htitle.
  { destruct (search_exact_title lk "" aid Habbr Htitle) as (h & _ & Hrun);
      [eapply Hit; apply dict_get_str_In; exact Htitle | eauto]. }
  destruct (search_partial lk "" Hri Habbr Htitle) as (tier4 & _ & _ & Hrun & _ & Hall).
  destruct (titles lk) as [|[title k] ts] eqn:E; [congruence|].
  destruct (Hall title k (or_introl eq_refl) (contains_empty title)) as (h & Hh & _).
  rewrite Hrun.
  destruct (tier3 lk (lower "") ++ tier4)%list as [|h0 rest]; [contradiction|].
  exists h0, (firstn 9 rest). reflexivity.
Qed.

Lemma empty_query_lists_entries_witness :
  exists h rest, search_anime Catalog.tables "" = Ok (h :: rest).
Proof.
  apply (empty_query_lists_entries Catalog.tables); [apply catalog_integrity | discriminate].
Defined.

(** ** More about the injection *)

Lemma enumerate_In {A : Type} (xs : list A) : forall start i x,
  In (i, x) (enumerate start xs) -> In x xs.
Proof.
  induction xs as [|x0 xs IH]; intros start i x; simpl; [tauto|].
  intros [H|H]; [inversion H; now left | right; eapply IH; eauto].
Qed.

(** X14: every payload [inject_to_knowledge_base] posts is built from a
    record of [anime_data]: its URL and title are the record's, its source
    type is ["anidb_metadata"], it names no user, its confidence lies
    between 0 and 1, and it lists at most five related entities. *)
Theorem injected_payloads_describe_records
  (uuid4 utcnow_isoformat : Z -> string)
  (post : Z -> Webhook.payload -> result Webhook.response) (lk : lookup)
  (p : Webhook.payload) :
  In p (posts (fst (inject_to_knowledge_base uuid4 utcnow_isoformat post lk))) ->
  exists k a,
    In (k, a) (anime_data lk) /\
    Webhook.url p = Some (anidb_url a) /\
    Webhook.title p = main_title a /\
    Webhook.source_type p = "anidb_metadata" /\
    Webhook.sourceUser p = None /\
    Webhook.in_unit_interval (Webhook.confidence p) = true /\
    (length (Webhook.related_entities p) <= 5)%nat.
Proof.
  unfold inject_to_knowledge_base.
  destruct (inject_loop_outcome uuid4 utcnow_isoformat post
              (Z.of_nat (length (anime_data lk))) (enumerate 1 (anime_data lk)) 0 0)
    as (t & Hloop & Hposts).
  cbn [print emit io_bind]. rewrite Hloop. cbn [io_bind io_ret fst snd app posts].
  rewrite posts_app, Hposts. cbn [posts]. rewrite app_nil_r.
  intros Hin. apply in_map_iff in Hin as ([idx [k a]] & <- & Hitem).
  apply enumerate_In in Hitem. exists k, a. split; [exact Hitem|].
  unfold item_payload, inject_payload. cbn [fst snd].
  repeat (split; [reflexivity|]).
  cbn [Webhook.related_entities]. rewrite length_map. apply firstn_le_length.
Qed.

Lemma injected_payloads_describe_records_witness :
  exists k a,
    In (k, a) (anime_data Catalog.tables) /\
    Webhook.url (inject_payload Scenario.uuid4 Scenario.utcnow_isoformat 3
                   (record_of 1453 (nth 2 Catalog.catalog Catalog.two_mains))) =
      Some (anidb_url a) /\
    Webhook.title (inject_payload Scenario.uuid4 Scenario.utcnow_isoformat 3
                     (record_of 1453 (nth 2 Catalog.catalog Catalog.two_mains))) =
      main_title a /\
    Webhook.source_type (inject_payload Scenario.uuid4 Scenario.utcnow_isoformat 3
                           (record_of 1453 (nth 2 Catalog.catalog Catalog.two_mains))) =
      "anidb_metadata" /\
    Webhook.sourceUser (inject_payload Scenario.uuid4 Scenario.utcnow_isoformat 3
                          (record_of 1453 (nth 2 Catalog.catalog Catalog.two_mains))) = None /\
    Webhook.in_unit_interval
      (Webhook.confidence (inject_payload Scenario.uuid4 Scenario.utcnow_isoformat 3
                             (record_of 1453 (nth 2 Catalog.catalog Catalog.two_mains)))) = true /\
    (length (Webhook.related_entities
               (inject_payload Scenario.uuid4 Scenario.utcnow_isoformat 3
                  (record_of 1453 (nth 2 Catalog.catalog Catalog.two_mains)))) <= 5)%nat.
Proof.
  apply (injected_payloads_describe_records Scenario.uuid4 Scenario.utcnow_isoformat
           Scenario.post_ok Catalog.tables).
  cbn. right. right. left. reflexivity.
Defined.

(** ** The progress lines of the injection *)

Lemma progress_lines_app t1 t2 :
  progress_lines (t1 ++ t2) = (progress_lines t1 ++ progress_lines t2)%list.
Proof.
  induction t1 as [|[m|u|u b] t1 IH]; simpl; [reflexivity | | exact IH | exact IH].
  destruct m; simpl; now rewrite IH.
Qed.

Section InjectProgress.

Variable uuid4 : Z -> string.
Variable utcnow_isoformat : Z -> string.
Variable post : Z -> Webhook.payload -> result Webhook.response.

(** One item: a progress line when its number is a multiple of 500, with the
    counts as they stand before the item, and one more outcome counted. *)
Lemma inject_item_progress total s e item :
  exists t s' e',
    inject_item uuid4 utcnow_isoformat post total (s, e) item = (t, Ok (s', e')) /\
    (s' + e' = s + e + 1)%Z /\
    progress_lines t =
      if (fst item mod 500 =? 0)%Z then [(fst item, total, s, e)] else [].
Proof.
  destruct item as [idx [aid a]]. unfold inject_item. cbn [fst snd].
  destruct (idx mod 500 =? 0)%Z;
    destruct (post idx (inject_payload uuid4 utcnow_isoformat idx a)) as [r|ex];
    cbn; try destruct ((Webhook.status_code r =? 200)%Z || (Webhook.status_code r =? 201)%Z);
    cbn; eexists; eexists; eexists; (split; [reflexivity|]); split; try reflexivity; lia.
Qed.

Lemma inject_loop_progress total (data : list (Z * anime)) : forall start s e,
  (s + e = start - 1)%Z ->
  exists t counts,
    io_for_each (inject_item uuid4 utcnow_isoformat post total)
      (enumerate start data) (s, e) = (t, Ok counts) /\
    Forall (fun line =>
              let '(idx, tot, success, errors) := line in
              (idx mod 500 = 0 /\ start <= idx < start + Z.of_nat (length data) /\
               tot = total /\ success + errors = idx - 1)%Z) (progress_lines t) /\
    map (fun line => fst (fst (fst line))) (progress_lines t) =
      filter (fun idx => (idx mod 500 =? 0)%Z) (map fst (enumerate start data)).
Proof.
  induction data as [|x data IH]; intros start s e Hsum.
  - exists [], (s, e). cbn. repeat split. constructor.
  - cbn [enumerate map io_for_each fst snd].
    destruct (inject_item_progress total s e (start, x)) as (t1 & s1 & e1 & Hitem & Hsum1 & Hp1).
    destruct (IH (start + 1)%Z s1 e1) as (t2 & counts & Hrest & Hall & Hidx); [lia|].
    unfold io_bind at 1. rewrite Hitem, Hrest.
    exists (t1 ++ t2)%list, counts. split; [reflexivity|].
    rewrite progress_lines_app, Hp1. cbn [fst filter length].
    split.
    + apply Forall_app. split.
      * destruct (Z.eqb_spec (start mod 500) 0) as [Hmod|Hmod]; constructor; [|constructor].
        repeat split; try lia.
      * eapply Forall_impl; [|exact Hall]. intros [[[idx tot] su] er].
        intros (H1 & H2 & H3 & H4). repeat split; try assumption; lia.
    + rewrite map_app, Hidx. now destruct (start mod 500 =? 0)%Z.
Qed.

End InjectProgress.

(** X29: [inject_to_knowledge_base] prints a progress line at the items whose
    number is a multiple of 500 and at no other.  Each line shows the number
    of records as the total, and counts as they stand before the request of
    its own item: at item 500 it reports 499 outcomes. *)
Theorem progress_every_500_items
  (uuid4 utcnow_isoformat : Z -> string)
  (post : Z -> Webhook.payload -> result Webhook.response) (lk : lookup) :
  Forall (counts_items_before (Z.of_nat (length (anime_data lk))))
    (progress_lines (fst (inject_to_knowledge_base uuid4 utcnow_isoformat post lk))) /\
  map (fun line => fst (fst (fst line)))
    (progress_lines (fst (inject_to_knowledge_base uuid4 utcnow_isoformat post lk))) =
  filter (fun idx => (idx mod 500 =? 0)%Z) (map fst (enumerate 1 (anime_data lk))).
Proof.
  unfold inject_to_knowledge_base.
  destruct (inject_loop_progress uuid4 utcnow_isoformat post
              (Z.of_nat (length (anime_data lk))) (anime_data lk) 1 0 0 eq_refl)
    as (t & counts & Hloop & Hall & Hidx).
  cbn [print emit io_bind]. rewrite Hloop. cbn [io_bind io_ret fst snd app progress_lines].
  rewrite progress_lines_app. cbn [progress_lines]. rewrite app_nil_r. split; [|exact Hidx].
  eapply Forall_impl; [|exact Hall]. intros [[[idx tot] su] er].
  unfold counts_items_before. intros (H1 & H2 & H3 & H4). repeat split; try assumption; lia.
Qed.

(** ** More about the scraper *)


Section ScrapeMore.

Variable urlparse_netloc : string -> result string.
Variable fetch : string -> result ScrapeToN8n.page.
Variable uuid4 : string -> string.
Variable post : Z -> Webhook.payload -> result Webhook.response.




End ScrapeMore.




Section ScrapeReports.

Variable urlparse_netloc : string -> result string.
Variable fetch : string -> result ScrapeToN8n.page.
Variable uuid4 : string -> string.




End ScrapeReports.



(** ** Normal forms of strings *)

Lemma is_space_lower_char c : is_space (lower_char c) = is_space c.
Proof. destruct c as [[] [] [] [] [] [] [] []]; reflexivity. Qed.

Lemma lstrip_lower s : lstrip (lower s) = lower (lstrip s).
Proof.
  induction s as [|c s IH]; [reflexivity|]. cbn [lower lstrip].
  rewrite is_space_lower_char. destruct (is_space c); [exact IH | reflexivity].
Qed.

Lemma rstrip_lower s : rstrip (lower s) = lower (rstrip s).
Proof.
  induction s as [|c s IH]; [reflexivity|]. cbn [lower rstrip]. rewrite IH.
  destruct (rstrip s) as [|c' s']; cbn [lower]; [|reflexivity].
  rewrite is_space_lower_char. now destruct (is_space c).
Qed.

Lemma strip_lower s : strip (lower s) = lower (strip s).
Proof. unfold strip. now rewrite lstrip_lower, rstrip_lower. Qed.

Lemma lstrip_starts_clean s : starts_clean (lstrip s).
Proof.
  induction s as [|c s IH]; [exact I|]. cbn [lstrip].
  destruct (is_space c) eqn:E; [exact IH | exact E].
Qed.

Lemma lstrip_clean s : starts_clean s -> lstrip s = s.
Proof. destruct s as [|c s]; [reflexivity|]. cbn. now intros ->. Qed.

Lemma rstrip_starts_clean s : starts_clean s -> starts_clean (rstrip s).
Proof.
  destruct s as [|c s]; [intros _; exact I|]. cbn [starts_clean rstrip]. intros Hc.
  destruct (rstrip s); [rewrite Hc|]; exact Hc.
Qed.

Lemma rstrip_rstrip s : rstrip (rstrip s) = rstrip s.
Proof.
  induction s as [|c s IH]; [reflexivity|]. cbn [rstrip].
  destruct (rstrip s) as [|c' s'] eqn:E.
  - destruct (is_space c) eqn:Ec; [reflexivity|]. cbn [rstrip]. now rewrite Ec.
  - cbn [rstrip]. cbn [rstrip] in IH. rewrite IH. reflexivity.
Qed.

(** [strip] is idempotent. *)
Lemma strip_strip s : strip (strip s) = strip s.
Proof.
  unfold strip.
  rewrite (lstrip_clean (rstrip (lstrip s)))
    by (apply rstrip_starts_clean, lstrip_starts_clean).
  apply rstrip_rstrip.
Qed.

Lemma strip_empty s : is_empty s = true -> strip s = s.
Proof. destruct s; [reflexivity | discriminate]. Qed.

(** ** The exclusion list *)

Lemma domains_of_In entries x :
  In x (domains_of entries) <-> exists d, In (Some d) entries /\ x = lower (strip d).
Proof.
  induction entries as [|[d0|] entries IH]; cbn [domains_of In].
  - split; [tauto | intros (d & [] & _)].
  - rewrite IH. split.
    + intros [<-|(d & Hd & ->)]; [exists d0 | exists d]; split; auto.
    + intros (d & [Hd|Hd] & ->); [inversion Hd; now left | right; eauto].
  - rewrite IH. split.
    + intros (d & Hd & ->). exists d. split; auto.
    + intros (d & [Hd|Hd] & ->); [discriminate | eauto].
Qed.

(** X16: whatever the exclusion file holds, the domains loaded from it are
    lower-case, without surrounding blanks, and distinct; a file that is
    missing or not readable gives none.  Both scripts load it the same
    way. *)
Theorem loaded_domains_are_normalised (file : exclusions_file) :
  ManualFact.load_excluded_domains_json file = ScrapeToN8n.load_excluded_domains_json file /\
  NoDup (ScrapeToN8n.load_excluded_domains_json file) /\
  (forall d, In d (ScrapeToN8n.load_excluded_domains_json file) ->
     lower d = d /\ strip d = d) /\
  (forall d, In d (ScrapeToN8n.load_excluded_domains_json file) ->
     exists entries, file = Json entries).
Proof.
  split; [reflexivity|]. destruct file as [| |entries]; cbn [ScrapeToN8n.load_excluded_domains_json].
  - split; [constructor|]. split; intros d [].
  - split; [constructor|]. split; intros d [].
  - split; [apply NoDup_nodup|]. split.
    + intros d Hd. apply nodup_In in Hd. apply domains_of_In in Hd as (d0 & _ & ->).
      split; [apply lower_lower|]. now rewrite strip_lower, strip_strip.
    + intros d _. now exists entries.
Qed.

(** X17: a domain the exclusion file lists is vetoed however the file and
    the URL spell it: blanks around the entry and the casing of either side
    do not matter. *)
Theorem listed_domain_is_vetoed (entries : list (option string)) (d host : string) :
  In (Some d) entries ->
  lower host = lower (strip d) ->
  domain_excluded (ScrapeToN8n.load_excluded_domains_json (Json entries)) (lower host) = true /\
  domain_excluded (ManualFact.load_excluded_domains_json (Json entries)) (lower host) = true.
Proof.
  intros Hin Hhost.
  assert (H : domain_excluded (nodup string_dec (domains_of entries)) (lower host) = true).
  { apply domain_excluded_iff. exists (lower (strip d)). split; [|now left].
    apply nodup_In. apply domains_of_In. now exists d. }
  split; exact H.
Qed.

Lemma listed_domain_is_vetoed_witness :
  domain_excluded (ScrapeToN8n.load_excluded_domains_json
                     (Json [None; Some "  Example.COM "])) (lower "EXAMPLE.com") = true /\
  domain_excluded (ManualFact.load_excluded_domains_json
                     (Json [None; Some "  Example.COM "])) (lower "EXAMPLE.com") = true.
Proof.
  apply (listed_domain_is_vetoed [None; Some "  Example.COM "] "  Example.COM " "EXAMPLE.com").
  - right. left. reflexivity.
  - reflexivity.
Defined.

(** X18: the list read from a comma-separated answer has no empty element
    and no element with surrounding blanks; a blank answer gives the empty
    list. *)
Theorem comma_list_elements_are_clean (s : string) :
  (forall t, In t (comma_list s) -> is_empty t = false /\ strip t = t) /\
  (is_empty (strip s) = true -> comma_list (strip s) = []).
Proof.
  split.
  - unfold comma_list. destruct (is_empty s); [intros t []|].
    intros t Hin. apply filter_In in Hin as [Hin Hne].
    apply in_map_iff in Hin as (piece & <- & _).
    split; [now apply negb_true_iff in Hne | apply strip_strip].
  - unfold comma_list. now intros ->.
Qed.

(** ** More about the manual entry *)

Lemma comma_list_clean s : clean_list (comma_list s).
Proof.
  unfold clean_list, comma_list. destruct (is_empty s); [intros t []|].
  intros t Hin. apply filter_In in Hin as [Hin Hne].
  apply in_map_iff in Hin as (piece & <- & _).
  split; [now apply negb_true_iff in Hne | apply strip_strip].
Qed.

Lemma not_empty_string s : is_empty s = false -> Some s <> Some ""%string.
Proof. intros He H. inversion H; subst. discriminate. Qed.

(** The payload the loop builds from the seven answers of a pass whose text
    is not [quit]. *)
Lemma manual_payload_typed (fact_id timestamp : string) (confidence : float)
  (url title text tags source_type related_entities : string) :
  (lower (strip text) =? "quit")%string = false ->
  typed_by_hand
    {| Webhook.id := fact_id;
       Webhook.text := strip text;
       Webhook.url := if is_empty (strip url) then None else Some (strip url);
       Webhook.title := if is_empty (strip title) then None else Some (strip title);
       Webhook.source_type :=
         if is_empty (strip source_type) then "manual" else strip source_type;
       Webhook.confidence := confidence;
       Webhook.timestamp := timestamp;
       Webhook.sourceUser := None;
       Webhook.tags := comma_list (strip tags);
       Webhook.related_entities := comma_list (strip related_entities) |}.
Proof.
  intros Hquit. unfold typed_by_hand.
  cbn [Webhook.text Webhook.url Webhook.title Webhook.source_type Webhook.sourceUser
       Webhook.tags Webhook.related_entities].
  split; [apply strip_strip|].
  split; [now apply String.eqb_neq|].
  split; [destruct (is_empty (strip url)) eqn:E; [discriminate | now apply not_empty_string]|].
  split; [destruct (is_empty (strip title)) eqn:E; [discriminate | now apply not_empty_string]|].
  split; [destruct (is_empty (strip source_type)) eqn:E; [reflexivity | exact E]|].
  split; [reflexivity|].
  split; apply comma_list_clean.
Qed.

Section ManualSafety.

Variable py_float : string -> option float.
Variable uuid4 : Z -> string.
Variable utcnow_isoformat : Z -> string.
Variable post : Z -> Webhook.payload -> result Webhook.response.
Variable webhook_url : string.
Variable excluded_domains : list string.

(** A computation that ends normally or at the end of the input, and posts
    only payloads that cite no excluded domain and are made as the loop
    makes them. *)
Let good {A : Type} (m : io A) : Prop :=
  (forall e, snd m = Raise e -> e = EOFError) /\
  Forall (fun p => cites_allowed_url excluded_domains p /\ typed_by_hand p)
    (posts (fst m)).

Lemma bind_good {A B : Type} (m : io A) (k : A -> io B) :
  (forall t e, m = (t, Raise e) -> e = EOFError /\ posts t = []) ->
  (forall t a, m = (t, Ok a) -> posts t = [] /\ good (k a)) ->
  good (io_bind m k).
Proof.
  unfold good. intros Hraise Hok. unfold io_bind. destruct m as [t1 [a|e]].
  - destruct (Hok t1 a eq_refl) as [Hp [Hr Hf]]. destruct (k a) as [t2 r2].
    cbn [fst snd] in *. split; [exact Hr|]. now rewrite posts_app, Hp.
  - destruct (Hraise t1 e eq_refl) as [-> Hp]. cbn [fst snd]. split.
    + intros e He. now inversion He.
    + rewrite Hp. constructor.
Qed.

Lemma input_good {B : Type} stdin (k : string * list string -> io B) :
  (forall line rest, good (k (line, rest))) ->
  good (io_bind (lift (ManualFact.input stdin)) k).
Proof.
  intros Hk. apply bind_good; unfold lift, ManualFact.input; destruct stdin; intros t a H;
    inversion H; subst; split; try reflexivity. apply Hk.
Qed.

Lemma ret_good {A : Type} (a : A) : good (io_ret a).
Proof. split; [intros e He; discriminate | constructor]. Qed.

(** A pass of the loop ends normally or at the end of the input, and what
    it posts cites no excluded domain. *)
Lemma loop_body_good n stdin :
  good (ManualFact.loop_body py_float uuid4 utcnow_isoformat post webhook_url
          excluded_domains n stdin).
Proof.
  unfold ManualFact.loop_body.
  apply input_good. intros url_line stdin1. cbv beta iota zeta.
  apply bind_good.
  - (* the exclusion check does not raise *)
    intros t e. destruct (is_empty (strip url_line)); [discriminate|].
    destruct (manual_domain_of_total (strip url_line)) as [d ->]. cbn [io_bind lift].
    destruct (domain_excluded excluded_domains d); cbn; discriminate.
  - intros t excluded Hcheck.
    assert (Hfacts : posts t = [] /\
              (excluded = false ->
               forall u, (if is_empty (strip url_line) then None else Some (strip url_line))
                         = Some u ->
                 exists d, ManualFact.domain_of u = Ok d /\
                           domain_excluded excluded_domains d = false)).
    { destruct (is_empty (strip url_line)).
      - inversion Hcheck; subst. split; [reflexivity | discriminate].
      - destruct (manual_domain_of_total (strip url_line)) as [d Hd].
        rewrite Hd in Hcheck. cbn [io_bind lift] in Hcheck.
        destruct (domain_excluded excluded_domains d) eqn:Hex; cbn in Hcheck;
          inversion Hcheck; subst; (split; [reflexivity|]); [discriminate|].
        intros _ u Hu. inversion Hu; subst u. now exists d. }
    destruct Hfacts as [Hposts Hallowed]. split; [exact Hposts|].
    destruct excluded; [apply ret_good|]. specialize (Hallowed eq_refl).
    apply input_good. intros title_line stdin2. cbv beta iota zeta.
    apply input_good. intros text_line stdin3. cbv beta iota zeta.
    destruct (lower (strip text_line) =? "quit")%string eqn:Hquit.
    { split; [intros e He; discriminate | cbn; constructor]. }
    apply input_good. intros tags_line stdin4. cbv beta iota zeta.
    apply input_good. intros source_line stdin5. cbv beta iota zeta.
    apply input_good. intros confidence_line stdin6. cbv beta iota zeta.
    apply input_good. intros related_line stdin7. cbv beta iota zeta.
    match goal with |- context [post n ?p] => set (payload := p) end.
    assert (Hpayload : cites_allowed_url excluded_domains payload /\ typed_by_hand payload).
    { split; [exact Hallowed|]. now apply manual_payload_typed. }
    unfold good. destruct (post n payload) as [resp|ex]; cbn;
      (split; [intros e He; discriminate|]);
      (constructor; [exact Hpayload | constructor]).
Qed.

Lemma while_true_good fuel : forall n stdin,
  good (ManualFact.while_true py_float uuid4 utcnow_isoformat post fuel webhook_url
          excluded_domains n stdin).
Proof.
  induction fuel as [|fuel IH]; intros n stdin; cbn [ManualFact.while_true].
  - unfold good. split; [intros e He; now inversion He | constructor].
  - pose proof (loop_body_good n stdin) as [Hr Hf].
    unfold good in *. unfold io_bind.
    destruct (ManualFact.loop_body py_float uuid4 utcnow_isoformat post webhook_url
                excluded_domains n stdin) as [t1 [[stdin'|]|e1]]; cbn [fst snd] in *.
    + destruct (IH (n + 1) stdin') as [Hr2 Hf2].
      destruct (ManualFact.while_true py_float uuid4 utcnow_isoformat post fuel webhook_url
                  excluded_domains (n + 1) stdin') as [t2 r2]. cbn [fst snd] in *.
      split; [exact Hr2|]. rewrite posts_app. apply Forall_app. now split.
    + cbn. split; [intros e He; discriminate | now rewrite app_nil_r].
    + split; [|exact Hf]. intros e He. inversion He; subst. now apply Hr.
Qed.

End ManualSafety.



Section ManualEnds.

Variable py_float : string -> option float.
Variable uuid4 : Z -> string.
Variable utcnow_isoformat : Z -> string.
Variable post : Z -> Webhook.payload -> result Webhook.response.
Variable webhook_url : string.
Variable excluded_domains : list string.




End ManualEnds.


(** X20: the manual entry never submits a fact that cites an excluded
    domain: every payload it posts has no URL, or a URL whose domain is read
    and is not vetoed by the loaded exclusion list. *)
Theorem manual_entry_posts_no_excluded_url
  (py_float : string -> option float) (uuid4 utcnow_isoformat : Z -> string)
  (post : Z -> Webhook.payload -> result Webhook.response)
  (webhook_url : string) (excluded_domains_path : option exclusions_file)
  (stdin : list string) :
  Forall (cites_allowed_url
            match excluded_domains_path with
            | Some file => ManualFact.load_excluded_domains_json file
            | None => []
            end)
    (posts (fst (ManualFact.manual_fact_entry_and_send py_float uuid4 utcnow_isoformat post
                   webhook_url excluded_domains_path stdin))).
Proof.
  unfold ManualFact.manual_fact_entry_and_send.
  match goal with |- context [ManualFact.while_true _ _ _ _ ?f ?w ?ex ?n ?s] =>
    destruct (while_true_good py_float uuid4 utcnow_isoformat post w ex f n s) as [_ Hf]
  end.
  eapply Forall_impl; [|exact Hf]. now intros p [Hp _].
Qed.

(** X30: every fact the manual entry submits is made from the answers of
    one pass as the loop makes it: its text has no blanks around it and is
    not [quit] in any casing, its URL and its title are None rather than
    empty, its source type is not empty, it names no user, and its tags and
    related entities hold no empty element and none with blanks around
    it. *)
Theorem manual_entry_posts_clean_facts
  (py_float : string -> option float) (uuid4 utcnow_isoformat : Z -> string)
  (post : Z -> Webhook.payload -> result Webhook.response)
  (webhook_url : string) (excluded_domains_path : option exclusions_file)
  (stdin : list string) :
  Forall typed_by_hand
    (posts (fst (ManualFact.manual_fact_entry_and_send py_float uuid4 utcnow_isoformat post
                   webhook_url excluded_domains_path stdin))).
Proof.
  unfold ManualFact.manual_fact_entry_and_send.
  match goal with |- context [ManualFact.while_true _ _ _ _ ?f ?w ?ex ?n ?s] =>
    destruct (while_true_good py_float uuid4 utcnow_isoformat post w ex f n s) as [_ Hf]
  end.
  eapply Forall_impl; [|exact Hf]. now intros p [_ Hp].
Qed.

(** ** The prompt of anime_lookup.py *)

Lemma drop_lower n : forall s, Main.drop n (lower s) = lower (Main.drop n s).
Proof.
  induction n as [|n IH]; intros s; [reflexivity|].
  destruct s as [|c s]; [reflexivity|]. cbn [lower Main.drop]. apply IH.
Qed.

Section PromptFacts.

Variable uuid4 : Z -> string.
Variable utcnow_isoformat : Z -> string.
Variable post : Z -> Webhook.payload -> result Webhook.response.
Variable lk : lookup.

(** A key that does not leave the loop is consumed, whatever follows it,
    and the loop goes on. *)
Lemma prompt_pass_consumes k :
  Main.exits k = false ->
  exists t, forall rest,
    Main.prompt_pass uuid4 utcnow_isoformat post lk (k :: rest) = (t, Main.Continue rest).
Proof.
  destruct k as [l|]; cbn [Main.exits Main.prompt_pass]; [|discriminate].
  intros Hno. cbv zeta. rewrite Hno.
  destruct (lower (strip l) =? "inject")%string.
  - destruct (inject_to_knowledge_base uuid4 utcnow_isoformat post lk). eauto.
  - destruct (startswith (lower (strip l)) "search "); eauto.
Qed.

Lemma prompt_pass_breaks k :
  Main.exits k = true ->
  exists t, forall rest,
    Main.prompt_pass uuid4 utcnow_isoformat post lk (k :: rest) = (t, Main.Break).
Proof.
  destruct k as [l|]; cbn [Main.exits Main.prompt_pass]; intros H; cbv zeta.
  - rewrite H. eauto.
  - eauto.
Qed.

Lemma prompt_loop_at_eof fuel :
  Main.prompt_loop uuid4 utcnow_isoformat post fuel lk [] =
  (repeat (Main.Say (Main.ReplError EOFError)) fuel, Main.Running).
Proof.
  induction fuel as [|fuel IH]; [reflexivity|].
  cbn [Main.prompt_loop Main.prompt_pass repeat]. now rewrite IH.
Qed.

Lemma prompt_loop_runs fuel : forall stdin,
  (forall k, In k stdin -> Main.exits k = false) ->
  snd (Main.prompt_loop uuid4 utcnow_isoformat post fuel lk stdin) = Main.Running.
Proof.
  induction fuel as [|fuel IH]; intros stdin Hno; [reflexivity|].
  destruct stdin as [|k rest].
  - now rewrite prompt_loop_at_eof.
  - cbn [Main.prompt_loop].
    destruct (prompt_pass_consumes k (Hno k (or_introl eq_refl))) as [t Ht]. rewrite Ht.
    specialize (IH rest).
    destruct (Main.prompt_loop uuid4 utcnow_isoformat post fuel lk rest) as [t' s].
    cbn [snd] in *. apply IH. intros k0 Hk0. apply Hno. now right.
Qed.

Lemma prompt_loop_spins stdin :
  (forall k, In k stdin -> Main.exits k = false) ->
  exists t, forall n,
    Main.prompt_loop uuid4 utcnow_isoformat post (length stdin + n) lk stdin =
    ((t ++ repeat (Main.Say (Main.ReplError EOFError)) n)%list, Main.Running).
Proof.
  induction stdin as [|k rest IH]; intros Hno.
  - exists []. intros n. apply prompt_loop_at_eof.
  - destruct (prompt_pass_consumes k (Hno k (or_introl eq_refl))) as [t0 Ht0].
    destruct IH as [t' Ht']; [intros k0 Hk0; apply Hno; now right|].
    exists (t0 ++ t')%list. intros n.
    cbn [length Nat.add Main.prompt_loop]. rewrite Ht0, Ht'. now rewrite app_assoc.
Qed.

Lemma prompt_loop_returns pre : forall fuel k rest,
  (forall k0, In k0 pre -> Main.exits k0 = false) ->
  Main.exits k = true ->
  (length pre < fuel)%nat ->
  snd (Main.prompt_loop uuid4 utcnow_isoformat post fuel lk (pre ++ k :: rest)) =
    Main.Returned /\
  Main.prompt_loop uuid4 utcnow_isoformat post fuel lk (pre ++ k :: rest) =
  Main.prompt_loop uuid4 utcnow_isoformat post fuel lk (pre ++ [k]).
Proof.
  induction pre as [|k0 pre IH]; intros fuel k rest Hno Hk Hfuel;
    (destruct fuel as [|fuel]; [cbn in Hfuel; lia|]); cbn [app Main.prompt_loop].
  - destruct (prompt_pass_breaks k Hk) as (t & Ht). rewrite !Ht. now split.
  - destruct (prompt_pass_consumes k0 (Hno k0 (or_introl eq_refl))) as [t Ht]. rewrite !Ht.
    destruct (IH fuel k rest) as [Hs Heq];
      [intros k1 Hk1; apply Hno; now right | exact Hk | cbn in Hfuel; lia |].
    rewrite Heq in Hs |- *.
    destruct (Main.prompt_loop uuid4 utcnow_isoformat post fuel lk (pre ++ [k])) as [t' s].
    cbn [snd] in *. now split.
Qed.

(** The prompt reads its line without regard to case. *)
Lemma prompt_pass_case l1 l2 rest :
  lower (strip l1) = lower (strip l2) ->
  Main.prompt_pass uuid4 utcnow_isoformat post lk (Main.Line l1 :: rest) =
  Main.prompt_pass uuid4 utcnow_isoformat post lk (Main.Line l2 :: rest).
Proof.
  intros H. cbn [Main.prompt_pass]. cbv zeta. rewrite H.
  destruct (lower (strip l2) =? "quit")%string; [reflexivity|].
  destruct (lower (strip l2) =? "inject")%string; [reflexivity|].
  destruct (startswith (lower (strip l2)) "search ").
  - f_equal. f_equal. apply search_case_insensitive.
    rewrite <- !strip_lower, <- !drop_lower. now rewrite H.
  - f_equal. f_equal. now apply search_case_insensitive.
Qed.

End PromptFacts.

(** X21: the prompt loop of [main] is left only by [quit] or an interrupt.
    On an input without either it never returns, however many passes it is
    given: once the input is used up, [input] raises EOFError, the handler
    prints it, and the loop prompts again, so that every further pass adds
    one more error line and nothing else. *)
Theorem prompt_never_returns_without_quit
  (uuid4 utcnow_isoformat : Z -> string)
  (post : Z -> Webhook.payload -> result Webhook.response)
  (lk : lookup) (stdin : list Main.key) :
  (forall k, In k stdin -> Main.exits k = false) ->
  (forall fuel,
     snd (Main.prompt_loop uuid4 utcnow_isoformat post fuel lk stdin) = Main.Running) /\
  exists t, forall n,
    Main.prompt_loop uuid4 utcnow_isoformat post (length stdin + n) lk stdin =
    ((t ++ repeat (Main.Say (Main.ReplError EOFError)) n)%list, Main.Running).
Proof.
  intros Hno. split; [intros fuel; now apply prompt_loop_runs | now apply prompt_loop_spins].
Qed.

Lemma prompt_never_returns_without_quit_witness :
  (forall fuel,
     snd (Main.prompt_loop Scenario.uuid4 Scenario.utcnow_isoformat Scenario.post_ok fuel
            Catalog.tables [Main.Line "op"; Main.Line "search jujutsu"]) = Main.Running) /\
  exists t, forall n,
    Main.prompt_loop Scenario.uuid4 Scenario.utcnow_isoformat Scenario.post_ok
      (length [Main.Line "op"; Main.Line "search jujutsu"] + n)
      Catalog.tables [Main.Line "op"; Main.Line "search jujutsu"] =
    ((t ++ repeat (Main.Say (Main.ReplError EOFError)) n)%list, Main.Running).
Proof.
  apply (prompt_never_returns_without_quit Scenario.uuid4 Scenario.utcnow_isoformat
           Scenario.post_ok Catalog.tables [Main.Line "op"; Main.Line "search jujutsu"]).
  intros k [<-|[<-|[]]]; reflexivity.
Defined.

(** X22: the first [quit] or interrupt ends the prompt loop, as soon as the
    loop has had a pass for each key before it and one more; nothing that
    follows it is read. *)
Theorem prompt_returns_at_first_quit
  (uuid4 utcnow_isoformat : Z -> string)
  (post : Z -> Webhook.payload -> result Webhook.response)
  (lk : lookup) (pre : list Main.key) (k : Main.key) (rest : list Main.key) (fuel : nat) :
  (forall k0, In k0 pre -> Main.exits k0 = false) ->
  Main.exits k = true ->
  (length pre < fuel)%nat ->
  snd (Main.prompt_loop uuid4 utcnow_isoformat post fuel lk (pre ++ k :: rest)) =
    Main.Returned /\
  Main.prompt_loop uuid4 utcnow_isoformat post fuel lk (pre ++ k :: rest) =
  Main.prompt_loop uuid4 utcnow_isoformat post fuel lk (pre ++ [k]).
Proof. apply prompt_loop_returns. Qed.

Lemma prompt_returns_at_first_quit_witness :
  snd (Main.prompt_loop Scenario.uuid4 Scenario.utcnow_isoformat Scenario.post_ok 2
         Catalog.tables ([Main.Line "op"] ++ Main.Line " QUIT " :: [Main.Line "inject"])) =
    Main.Returned /\
  Main.prompt_loop Scenario.uuid4 Scenario.utcnow_isoformat Scenario.post_ok 2
    Catalog.tables ([Main.Line "op"] ++ Main.Line " QUIT " :: [Main.Line "inject"]) =
  Main.prompt_loop Scenario.uuid4 Scenario.utcnow_isoformat Scenario.post_ok 2
    Catalog.tables ([Main.Line "op"] ++ [Main.Line " QUIT "]).
Proof.
  apply (prompt_returns_at_first_quit Scenario.uuid4 Scenario.utcnow_isoformat
           Scenario.post_ok Catalog.tables [Main.Line "op"] (Main.Line " QUIT ")
           [Main.Line "inject"] 2).
  - intros k [<-|[]]. reflexivity.
  - reflexivity.
  - cbn. lia.
Defined.

(** X23: the prompt ignores case and surrounding blanks: two lines with the
    same stripped, lower-cased text get the same pass, whether they are a
    command, a [search] with its query, or a bare query. *)
Theorem prompt_ignores_case
  (uuid4 utcnow_isoformat : Z -> string)
  (post : Z -> Webhook.payload -> result Webhook.response)
  (lk : lookup) (l1 l2 : string) (rest : list Main.key) :
  lower (strip l1) = lower (strip l2) ->
  Main.prompt_pass uuid4 utcnow_isoformat post lk (Main.Line l1 :: rest) =
  Main.prompt_pass uuid4 utcnow_isoformat post lk (Main.Line l2 :: rest).
Proof. apply prompt_pass_case. Qed.

Lemma prompt_ignores_case_witness :
  Main.prompt_pass Scenario.uuid4 Scenario.utcnow_isoformat Scenario.post_ok Catalog.tables
    [Main.Line "  Search  JUJUTSU "] =
  Main.prompt_pass Scenario.uuid4 Scenario.utcnow_isoformat Scenario.post_ok Catalog.tables
    [Main.Line "search  jujutsu"].
Proof.
  apply (prompt_ignores_case Scenario.uuid4 Scenario.utcnow_isoformat Scenario.post_ok
           Catalog.tables "  Search  JUJUTSU " "search  jujutsu" []).
  reflexivity.
Defined.

(** ** Errors of [main] *)

Lemma parsed_tables_integrity (py_int : string -> option Z) xml lk :
  parse_anime_titles py_int xml = Ok (Some lk) -> referential_integrity lk.
Proof.
  destruct xml as [root|]; [|discriminate]. unfold parse_anime_titles.
  destruct (for_each (anime_step py_int) root empty_lookup) as [lk1|e] eqn:Hloop;
    cbn [bind]; [|discriminate].
  intros H. inversion H; subst.
  eapply anime_loop_integrity; [apply empty_lookup_integrity | exact Hloop].
Qed.

Lemma parse_raises_ValueError (py_int : string -> option Z) xml e :
  parse_anime_titles py_int xml = Raise e -> e = ValueError.
Proof.
  destruct xml as [root|]; [|discriminate]. unfold parse_anime_titles.
  destruct (for_each (anime_step py_int) root empty_lookup) as [lk|e1] eqn:Hloop;
    cbn [bind]; [discriminate|].
  intros H. inversion H; subst e1.
  exact (proj1 (anime_loop_raises py_int root e empty_lookup Hloop)).
Qed.

Section MainFacts.

Variable uuid4 : Z -> string.
Variable utcnow_isoformat : Z -> string.
Variable post : Z -> Webhook.payload -> result Webhook.response.

Lemma inject_returns lk :
  exists t counts, inject_to_knowledge_base uuid4 utcnow_isoformat post lk = (t, Ok counts).
Proof.
  unfold inject_to_knowledge_base.
  destruct (inject_loop_outcome uuid4 utcnow_isoformat post
              (Z.of_nat (length (anime_data lk))) (enumerate 1 (anime_data lk)) 0 0)
    as (t & Hloop & _).
  cbn [print emit io_bind]. rewrite Hloop. cbn. eauto.
Qed.

Lemma show_repl_no_error line results e :
  (forall h, line h <> Main.ReplError e) ->
  ~ In (Main.Say (Main.ReplError e)) (Main.show_repl line (Ok results)).
Proof.
  intros Hline. destruct results as [|h results]; cbn [Main.show_repl].
  - intros [H|[]]. discriminate.
  - intros Hin. apply in_map_iff in Hin as (h0 & Heq & _).
    inversion Heq as [Hl]. now apply (Hline h0).
Qed.

(** On tables that keep their invariant, a pass prints an error only at the
    end of the input. *)
Lemma prompt_pass_error lk stdin e :
  referential_integrity lk ->
  In (Main.Say (Main.ReplError e))
     (fst (Main.prompt_pass uuid4 utcnow_isoformat post lk stdin)) ->
  e = EOFError /\ stdin = [].
Proof.
  intros Hri. destruct stdin as [|[l|] rest]; cbn [Main.prompt_pass].
  - intros [H|[]]. inversion H. now split.
  - cbv zeta. destruct (lower (strip l) =? "quit")%string; [intros []|].
    destruct (lower (strip l) =? "inject")%string.
    + destruct (inject_returns lk) as (t & counts & ->). cbn [fst].
      rewrite app_nil_r. intros Hin. apply in_map_iff in Hin as (x & Hx & _). discriminate.
    + destruct (startswith (lower (strip l)) "search "); cbn [fst].
      * destruct (search_returns lk (strip (Main.drop 7 (strip l))) Hri) as [results ->].
        intros Hin. exfalso. revert Hin. apply show_repl_no_error. discriminate.
      * destruct (search_returns lk (strip l) Hri) as [results ->].
        intros Hin. exfalso. revert Hin. apply show_repl_no_error. discriminate.
  - intros [H|[]]. discriminate.
Qed.

Lemma prompt_loop_error lk e :
  referential_integrity lk ->
  forall fuel stdin,
    In (Main.Say (Main.ReplError e))
       (fst (Main.prompt_loop uuid4 utcnow_isoformat post fuel lk stdin)) ->
    e = EOFError /\ (forall k, In k stdin -> Main.exits k = false) /\
    (length stdin < fuel)%nat.
Proof.
  intros Hri. induction fuel as [|fuel IH]; intros stdin; [intros []|].
  destruct stdin as [|k rest].
  - rewrite prompt_loop_at_eof. cbn [fst]. intros Hin. apply repeat_spec in Hin.
    inversion Hin. repeat split; [intros k [] | cbn; lia].
  - cbn [Main.prompt_loop].
    pose proof (prompt_pass_error lk (k :: rest) e Hri) as Hpass.
    destruct (Main.prompt_pass uuid4 utcnow_isoformat post lk (k :: rest)) as [t p] eqn:Hp.
    cbn [fst] in Hpass.
    destruct (Main.exits k) eqn:Hk.
    + destruct (prompt_pass_breaks uuid4 utcnow_isoformat post lk k Hk) as [t0 Ht0].
      rewrite Ht0 in Hp. inversion Hp; subst. cbn [fst]. intros Hin.
      destruct (Hpass Hin) as [_ Habs]. discriminate.
    + destruct (prompt_pass_consumes uuid4 utcnow_isoformat post lk k Hk) as [t0 Ht0].
      rewrite Ht0 in Hp. inversion Hp; subst.
      specialize (IH rest).
      destruct (Main.prompt_loop uuid4 utcnow_isoformat post fuel lk rest) as [t' s].
      cbn [fst] in *. intros Hin. apply in_app_or in Hin as [Hin|Hin].
      * destruct (Hpass Hin) as [_ Habs]. discriminate.
      * destruct (IH Hin) as (He & Hno & Hlen). repeat split; [exact He | | cbn; lia].
        intros k0 [<-|Hk0]; [exact Hk | now apply Hno].
Qed.

Lemma show_cli_no_error results e :
  ~ In (Main.Say (Main.ReplError e)) (Main.show_cli results).
Proof.
  destruct results as [|h results]; unfold Main.show_cli.
  - intros [H|[]]. discriminate.
  - intros Hin. apply in_flat_map in Hin as (h0 & _ & [H|[H|[]]]); discriminate.
Qed.

End MainFacts.

Lemma parse_says_no_error xml parsed e :
  ~ In (Main.Say (Main.ReplError e)) (Main.parse_says xml parsed).
Proof.
  unfold Main.parse_says. destruct xml as [root|]; [|intros [H|[]]; discriminate].
  destruct parsed as [[lk|]|e0]; cbn; intuition discriminate.
Qed.

(** X24: the only exception that leaves [main] is the ValueError of the
    parser, raised when the line that announces the parsing has been printed
    and nothing else.  A query given on the command line never fails on the
    tables the parser built, and the prompt loop lets no exception out. *)
Theorem main_fails_only_in_the_parser
  (py_int : string -> option Z) (uuid4 utcnow_isoformat : Z -> string)
  (post : Z -> Webhook.payload -> result Webhook.response)
  (fuel : nat) (xml : option (list anime_elem)) (argv : list string)
  (stdin : list Main.key) (t : list Main.action) (e : exn) :
  Main.main py_int uuid4 utcnow_isoformat post fuel xml argv stdin = (t, Raise e) ->
  t = [Main.Say Main.Parsing] /\ e = ValueError /\
  parse_anime_titles py_int xml = Raise ValueError.
Proof.
  unfold Main.main. cbv zeta.
  destruct (parse_anime_titles py_int xml) as [[lk|]|e0] eqn:Hparse.
  - pose proof (parsed_tables_integrity py_int xml lk Hparse) as Hri.
    destruct argv as [|a argv].
    + destruct (Main.prompt_loop uuid4 utcnow_isoformat post fuel lk stdin). discriminate.
    + destruct (search_returns lk (String.concat " " (a :: argv)) Hri) as [results ->].
      discriminate.
  - discriminate.
  - intros H. inversion H; subst.
    rewrite (parse_raises_ValueError py_int xml e Hparse) in *.
    destruct xml as [root|]; [now repeat split | discriminate].
Qed.

Lemma main_fails_only_in_the_parser_witness :
  [Main.Say Main.Parsing] = [Main.Say Main.Parsing] /\ ValueError = ValueError /\
  parse_anime_titles Library.int_of_digits
    (Some [ {| attr_aid := Some "21a"; title_elems := [] |} ]) = Raise ValueError.
Proof.
  apply (main_fails_only_in_the_parser Library.int_of_digits Scenario.uuid4
           Scenario.utcnow_isoformat Scenario.post_ok 3
           (Some [ {| attr_aid := Some "21a"; title_elems := [] |} ])
           ["one"; "piece"] [] [Main.Say Main.Parsing] ValueError).
  reflexivity.
Defined.

(** X25: the only error line a run of [main] prints is the EOFError of
    [input], and it prints it only in the prompt loop, after an input that
    ended without [quit] or an interrupt was read to its end.  A query typed
    at the prompt or given on the command line, and [inject], print no
    error. *)
Theorem main_reports_only_the_end_of_input
  (py_int : string -> option Z) (uuid4 utcnow_isoformat : Z -> string)
  (post : Z -> Webhook.payload -> result Webhook.response)
  (fuel : nat) (xml : option (list anime_elem)) (argv : list string)
  (stdin : list Main.key) (e : exn) :
  In (Main.Say (Main.ReplError e))
     (fst (Main.main py_int uuid4 utcnow_isoformat post fuel xml argv stdin)) ->
  e = EOFError /\ argv = [] /\
  (forall k, In k stdin -> Main.exits k = false) /\ (length stdin < fuel)%nat.
Proof.
  unfold Main.main. cbv zeta.
  pose proof (parse_says_no_error xml (parse_anime_titles py_int xml) e) as Hsays.
  destruct (parse_anime_titles py_int xml) as [[lk|]|e0] eqn:Hparse;
    try (cbn [fst]; intros Hin; now apply Hsays in Hin).
  pose proof (parsed_tables_integrity py_int xml lk Hparse) as Hri.
  destruct argv as [|a argv].
  - pose proof (prompt_loop_error uuid4 utcnow_isoformat post lk e Hri fuel stdin) as Hloop.
    destruct (Main.prompt_loop uuid4 utcnow_isoformat post fuel lk stdin) as [t s].
    cbn [fst] in *. intros Hin. apply in_app_or in Hin as [Hin|[H|Hin]];
      [now apply Hsays in Hin | discriminate |].
    destruct (Hloop Hin) as (He & Hno & Hlen). now repeat split.
  - destruct (search_returns lk (String.concat " " (a :: argv)) Hri) as [results ->].
    cbn [fst]. intros Hin. apply in_app_or in Hin as [Hin|[H|Hin]];
      [now apply Hsays in Hin | discriminate |].
    exfalso. revert Hin. apply show_cli_no_error.
Qed.

Lemma main_reports_only_the_end_of_input_witness :
  EOFError = EOFError /\ @nil string = [] /\
  (forall k, In k [Main.Line "op"] -> Main.exits k = false) /\
  (length [Main.Line "op"] < 2)%nat.
Proof.
  apply (main_reports_only_the_end_of_input Library.int_of_digits Scenario.uuid4
           Scenario.utcnow_isoformat Scenario.post_ok 2 (Some Catalog.catalog) []
           [Main.Line "op"] EOFError).
  vm_compute. do 6 right. left. reflexivity.
Defined.

(** ** The Shoko server *)

Lemma series_is_not_search :
  (Main.SHOKO_BASE_URL ++ "/series")%string <> (Main.SHOKO_BASE_URL ++ "/search")%string.
Proof. vm_compute. discriminate. Qed.

(** X26: [search_shoko] returns a result exactly when the health check is
    answered with status 200, the search is answered with status 200, and
    the body decodes to a list that starts with an object; the result is
    then built from that object.  In every other case, an exception of the
    request or of the decoding included, it returns None. *)
Theorem shoko_result_iff
  (http_get : string -> list (string * Main.json) -> result Main.shoko_response)
  (render : Main.json -> string) (query : string) (r : Main.shoko_result) :
  snd (Main.search_shoko http_get render query) = Some r <->
  exists health answer fields others,
    http_get (Main.SHOKO_BASE_URL ++ "/series")%string [] = Ok health /\
    Main.shoko_status health = 200%Z /\
    http_get (Main.SHOKO_BASE_URL ++ "/search")%string (Main.search_params query) = Ok answer /\
    Main.shoko_status answer = 200%Z /\
    Main.shoko_json answer = Ok (Main.JList (Main.JObj fields :: others)) /\
    r = Main.shoko_result_of render query fields.
Proof.
  unfold Main.search_shoko, Main.check_shoko_health, Main.shoko_try. split.
  - destruct (http_get (Main.SHOKO_BASE_URL ++ "/series")%string []) as [health|e1]
      eqn:Hget1; [|discriminate].
    destruct (Z.eqb_spec (Main.shoko_status health) 200) as [Hh|Hh]; [|discriminate].
    cbn [negb].
    destruct (http_get (Main.SHOKO_BASE_URL ++ "/search")%string (Main.search_params query))
      as [answer|e2] eqn:Hget2; [|discriminate].
    destruct (Z.eqb_spec (Main.shoko_status answer) 200) as [Ha|Ha]; [|discriminate].
    cbn [negb].
    destruct (Main.shoko_json answer) as [data|e3] eqn:Hjson; [|discriminate].
    destruct (Main.truthy data) eqn:Htruthy; cbn [negb]; [|discriminate].
    destruct data as [| | | | |[|anime others]|]; try discriminate.
    destruct anime as [| | | | | |fields]; try discriminate.
    cbn [snd]. intros H. inversion H; subst.
    exists health, answer, fields, others. now repeat split.
  - intros (health & answer & fields & others & -> & Hh & -> & Ha & -> & ->).
    rewrite Hh, Ha. reflexivity.
Qed.

(** X27: the search request is sent to the Shoko server exactly when the
    health check was answered with status 200: a server that is down, or
    answers the health check with another status, gets no second request. *)
Theorem shoko_search_needs_health
  (http_get : string -> list (string * Main.json) -> result Main.shoko_response)
  (render : Main.json -> string) (query : string) :
  In (Main.Do (HttpGet (Main.SHOKO_BASE_URL ++ "/search")))
     (fst (Main.search_shoko http_get render query)) <->
  exists health,
    http_get (Main.SHOKO_BASE_URL ++ "/series")%string [] = Ok health /\
    Main.shoko_status health = 200%Z.
Proof.
  unfold Main.search_shoko, Main.check_shoko_health. split.
  - destruct (http_get (Main.SHOKO_BASE_URL ++ "/series")%string []) as [health|e1].
    + destruct (Z.eqb_spec (Main.shoko_status health) 200) as [Hh|Hh]; [eauto|].
      cbn [negb fst]. intros [H|[]]. exfalso. apply series_is_not_search. congruence.
    + cbn [negb fst]. intros [H|[]]. exfalso. apply series_is_not_search. congruence.
  - intros (health & -> & ->). cbn [Z.eqb negb].
    destruct (Main.shoko_try http_get render query); cbn [fst app]; right; left; reflexivity.
Qed.
